(** * botsarchive: the response mapping of [botsarchive.client.Client]

    A shallow embedding of [src/botsarchive/client.py], [types.py] and
    [enums.py], and the properties of the mapping layer proved over it.

    Conventions of the embedding.
    - A Python object reaching the client (a decoded JSON document, a
      query parameter, a value returned by a method) is a [pyval].
    - A [str] is a Rocq [string]; a character stands for the code point of
      the same number, so the strings covered are those whose code points
      are below 256.
    - A [dict] decoded from JSON has [str] keys without duplicates; it is
      a [gmap string pyval].  No operation of the client depends on the
      insertion order of a dict.
    - A Python expression that can raise is a computation in [outcome];
      keyword arguments, subscripts and calls are sequenced left to right,
      as Python evaluates them.
    - The HTTP exchange ([self.client.get], [raise_for_status], [json]) is
      the [http_get] field of the client: it returns the decoded body or
      raises. *)

From Stdlib Require Import ZArith String Ascii Lia.
From Stdlib Require Import Floats.SpecFloat.
From Stdlib Require Import DecimalString DecimalPos.
From stdpp Require Import base option strings gmap list.

Set Warnings "-register-all".

Local Open Scope string_scope.
Local Open Scope Z_scope.

(** ** Python values, exceptions and the builtins the client calls *)

Module Py.

(** The objects [json.loads] builds: [None], [bool], [int], [float], [str],
    [list] and [dict].  A float is an IEEE 754 value. *)
Inductive pyval : Type :=
  | PyNone
  | PyBool (b : bool)
  | PyInt (z : Z)
  | PyFloat (f : spec_float)
  | PyStr (s : string)
  | PyList (l : list pyval)
  | PyDict (d : gmap string pyval).

(** The exceptions that can leave a method of the client.  [BotNotFound]
    is [exceptions.BotNotFound], constructed with one argument;
    [HTTPError] is what the HTTP exchange raises. *)
Inductive exn : Type :=
  | KeyError (key : string)
  | TypeError
  | ValueError
  | AttributeError
  | OverflowError
  | HTTPError
  | BotNotFound (message : pyval).

Inductive outcome (A : Type) : Type :=
  | Return (a : A)
  | Raise (e : exn).
Arguments Return {A} a.
Arguments Raise {A} e.

#[global] Instance outcome_ret : MRet outcome := @Return.
#[global] Instance outcome_bind : MBind outcome := λ A B f m,
  match m with
  | Return a => f a
  | Raise e => Raise e
  end.
#[global] Instance outcome_fmap : FMap outcome := λ A B f m,
  match m with
  | Return a => Return (f a)
  | Raise e => Raise e
  end.

(** [bool(v)]: the truth value of an object. *)
Definition truthy (v : pyval) : bool :=
  match v with
  | PyNone => false
  | PyBool b => b
  | PyInt z => negb (z =? 0)
  | PyFloat (S754_zero _) => false
  | PyFloat _ => true
  | PyStr s => negb (Nat.eqb (String.length s) 0)
  | PyList l => negb (Nat.eqb (length l) 0)
  | PyDict d => negb (Nat.eqb (size d) 0)
  end.

(** [v[key]] for a [str] key: only a dict can be subscripted by a string. *)
Definition getitem (v : pyval) (key : string) : outcome pyval :=
  match v with
  | PyDict d =>
      match d !! key with
      | Some x => Return x
      | None => Raise (KeyError key)
      end
  | _ => Raise TypeError
  end.

(** [v == s] for a string literal [s]: no other type compares equal to a
    [str]. *)
Definition eq_str (v : pyval) (s : string) : bool :=
  match v with
  | PyStr t => String.eqb t s
  | _ => false
  end.

(** [key in v] for a string literal [key]: a key of a dict, an element
    of a list, a substring of a string; other objects are not
    containers. *)
Definition contains (key : string) (v : pyval) : outcome bool :=
  match v with
  | PyDict d => Return (bool_decide (is_Some (d !! key)))
  | PyList l => Return (existsb (λ x, eq_str x key) l)
  | PyStr s => Return (bool_decide (is_Some (String.index 0 key s)))
  | _ => Raise TypeError
  end.

(** [for x in v]: the sequence of objects the iteration yields.  A string
    yields its characters and a dict its keys. *)
Definition iterate (v : pyval) : outcome (list pyval) :=
  match v with
  | PyList l => Return l
  | PyStr s => Return ((λ c, PyStr (String c "")) <$> list_ascii_of_string s)
  | PyDict d => Return (PyStr <$> (map_to_list d).*1)
  | _ => Raise TypeError
  end.

Definition code (c : ascii) : N := N_of_ascii c.

(** [str.isspace] on one character, the separator test of [str.split()]. *)
Definition isspace (c : ascii) : bool :=
  let n := code c in
  ((9 <=? n) && (n <=? 13) || (28 <=? n) && (n <=? 32)
   || (n =? 133) || (n =? 160))%N.

(** [s.split()]: the maximal runs of non-space characters, left to right.
    [word] is the run being read. *)
Fixpoint split_from (word s : string) : list string :=
  match s with
  | EmptyString =>
      match word with EmptyString => [] | _ => [word] end
  | String c rest =>
      if isspace c then
        match word with
        | EmptyString => split_from "" rest
        | _ => word :: split_from "" rest
        end
      else split_from (word +:+ String c "") rest
  end.

Definition split (s : string) : list string := split_from "" s.

(** [v.split()]: only [str] has the method among the decoded objects. *)
Definition call_split (v : pyval) : outcome (list string) :=
  match v with
  | PyStr s => Return (split s)
  | _ => Raise AttributeError
  end.

Fixpoint mem_char (c : ascii) (chars : string) : bool :=
  match chars with
  | EmptyString => false
  | String c' rest => Ascii.eqb c c' || mem_char c rest
  end.

(** [s.lstrip(chars)]: drop leading characters while they belong to
    [chars]. *)
Fixpoint lstrip (chars s : string) : string :=
  match s with
  | EmptyString => ""
  | String c rest => if mem_char c chars then lstrip chars rest else s
  end.

(** *** [int(v)] *)

(** The whitespace [int] skips around a literal. *)
Definition int_space (c : ascii) : bool :=
  let n := code c in
  ((9 <=? n) && (n <=? 13) || (n =? 32) || (n =? 133) || (n =? 160))%N.

Definition is_digit (c : ascii) : bool :=
  let n := code c in ((48 <=? n) && (n <=? 57))%N.

Definition digit_value (c : ascii) : Z := Z.of_N (code c) - 48.

Definition is_underscore (c : ascii) : bool := Ascii.eqb c "_".

Fixpoint skip_space (s : string) : string :=
  match s with
  | String c rest => if int_space c then skip_space rest else s
  | EmptyString => ""
  end.

(** The scan over digits and underscores: [prev] tells whether the
    previous character was an underscore, [acc] is the number read so far.
    The scan stops at the first character that is neither and returns the
    number with what follows; two underscores in a row or an underscore at
    the end are refused. *)
Fixpoint scan_digits (prev : bool) (acc : Z) (s : string) : option (Z * string) :=
  match s with
  | String c rest =>
      if is_underscore c then
        if prev then None else scan_digits true acc rest
      else if is_digit c then
        scan_digits false (10 * acc + digit_value c) rest
      else if prev then None else Some (acc, s)
  | EmptyString => if prev then None else Some (acc, "")
  end.

(** An optional sign: whether it is a minus, and what follows it. *)
Definition read_sign (s : string) : bool * string :=
  match s with
  | String "+" rest => (false, rest)
  | String "-" rest => (true, rest)
  | _ => (false, s)
  end.

(** [sys.int_info.default_max_str_digits]: the most digits a decimal
    literal may have, in CPython since 3.11 and in the later releases of
    3.7 to 3.10. *)
Definition max_str_digits : Z := 4300.

(** The number of digits the scan meets: those of the run of digits and
    underscores at the head of [s].  Underscores are not counted, leading
    zeros are. *)
Fixpoint count_digits (s : string) : Z :=
  match s with
  | String c rest =>
      if is_underscore c then count_digits rest
      else if is_digit c then 1 + count_digits rest
      else 0
  | EmptyString => 0
  end.

(** [int(s)] for a string, base 10: whitespace, a sign, digits with single
    underscores between them, whitespace; a literal of more than
    [max_str_digits] digits is refused. *)
Definition int_of_str (s : string) : outcome Z :=
  let '(negative, s2) := read_sign (skip_space s) in
  match s2 with
  | String c _ =>
      if is_digit c then
        match scan_digits false 0 s2 with
        | Some (n, rest) =>
            if max_str_digits <? count_digits s2 then Raise ValueError
            else
              match skip_space rest with
              | EmptyString => Return (if negative then - n else n)
              | _ => Raise ValueError
              end
        | None => Raise ValueError
        end
      else Raise ValueError
  | EmptyString => Raise ValueError
  end.

(** [int(f)] for a float: truncation toward zero. *)
Definition int_of_float (f : spec_float) : outcome Z :=
  match f with
  | S754_zero _ => Return 0
  | S754_infinity _ => Raise OverflowError
  | S754_nan => Raise ValueError
  | S754_finite s m e =>
      let magnitude := Z.shiftl (Z.pos m) e in
      Return (if s then - magnitude else magnitude)
  end.

Definition int (v : pyval) : outcome Z :=
  match v with
  | PyInt z => Return z
  | PyBool b => Return (if b then 1 else 0)
  | PyFloat f => int_of_float f
  | PyStr s => int_of_str s
  | PyNone | PyList _ | PyDict _ => Raise TypeError
  end.

(** *** Formatting in an f-string *)

(** The text of a float, a list or a dict placed in an f-string (Python's
    [repr] of these) is left to the interpreter.  An integer of a decoded
    body has at most [max_str_digits] digits, [json] refusing a longer
    literal as [int] does, so its text is never refused. *)
Class Repr := repr : pyval → string.

Definition str_of_int (z : Z) : string := NilZero.string_of_int (Z.to_int z).

(** [f"{v}"]: [format(v, "")]. *)
Definition format {R : Repr} (v : pyval) : string :=
  match v with
  | PyStr s => s
  | PyInt z => str_of_int z
  | PyBool true => "True"
  | PyBool false => "False"
  | PyNone => "None"
  | PyFloat _ | PyList _ | PyDict _ => repr v
  end.

End Py.

Import Py.

(** ** [types.py] *)

Module types.

(** The dataclass [Bot].  Its annotations are not enforced: a field holds
    whatever the constructor is given, so the fields passed through from
    the response are [pyval]s. *)
Record Bot : Type := {
  id : pyval;
  name : pyval;
  username : pyval;
  description : pyval;
  warn : pyval;
  msg : pyval;
  category : pyval;
  groups : bool;
  inline : bool;
  developer_id : Z;
  stars : pyval;
  votes : pyval;
  vote : pyval;
  tags : list string;
  languages : list string;
  offline : bool;
  photo : pyval;
  photo_url : option string
}.

End types.

(** ** [enums.py] *)

Module enums.

Inductive Category : Type :=
  | MUSIC | UTILITY | GAMES | STATISTICS | POLL | TELEGRAM
  | FILES | FUN | INFO | NOTIFICATION | MANAGING | MEDIA.

Definition value (c : Category) : string :=
  match c with
  | MUSIC => "music"
  | UTILITY => "utility"
  | GAMES => "games"
  | STATISTICS => "stats"
  | POLL => "poll"
  | TELEGRAM => "Telegram"
  | FILES => "file"
  | FUN => "entertainment"
  | INFO => "info"
  | NOTIFICATION => "notifications"
  | MANAGING => "manager"
  | MEDIA => "media"
  end.

End enums.

Import types.

(** ** [client.py] *)

Module client.

Definition API_BASE_URL : string := "https://api.botsarchive.com".
Definition PHOTO_BASE_URL : string := "https://www.botsarchive.com/img".

(** The state of a [Client] the methods read.  [http_get url params] is
    [self.client.get(url, params=params)] followed by
    [response.raise_for_status()] and [response.json()]; the proxies and
    the timeout are settings of that exchange. *)
Record Client : Type := {
  api_base_url : string;
  photo_base_url : string;
  http_get : string → list (string * pyval) → outcome pyval
}.

(** [Client(...)] with the default URLs. *)
Definition new (get : string → list (string * pyval) → outcome pyval) : Client :=
  {| api_base_url := API_BASE_URL;
     photo_base_url := PHOTO_BASE_URL;
     http_get := get |}.

(** [if "message" in data and data["message"] == "bot not found":
        raise exceptions.BotNotFound(data["message"])] *)
Definition raise_if_not_found (data : pyval) : outcome unit :=
  has_message ← contains "message" data;
  if (has_message : bool) then
    message ← getitem data "message";
    if eq_str message "bot not found" then
      message' ← getitem data "message";
      Raise (BotNotFound message')
    else Return tt
  else Return tt.

(** The constructor call [types.Bot(id=info["id"], ..., photo=info["photo"],
    photo_url=... if info["photo"] else None)] of [get_bot_id] (where
    [info] is [data["result"]]) and of [search]. *)
Definition Bot_with_photo_url {R : Repr} (self : Client) (info : pyval) : outcome Bot :=
  id ← getitem info "id";
  name ← getitem info "name";
  username ← getitem info "username";
  description ← getitem info "description";
  warn ← getitem info "warn";
  msg ← getitem info "msg";
  category ← getitem info "category";
  groups ← truthy <$> getitem info "groups";
  inline ← truthy <$> getitem info "inline";
  developer_id ← getitem info "developer_id" ≫= int;
  stars ← getitem info "stars";
  votes ← getitem info "votes";
  vote ← getitem info "vote";
  tags ← fmap (M := list) (lstrip "#") <$> (getitem info "tags" ≫= call_split);
  languages ← getitem info "languages" ≫= call_split;
  offline ← (λ z, negb (z =? 0)) <$> (getitem info "offline" ≫= int);
  photo ← getitem info "photo";
  photo_url ← (
    has_photo ← getitem info "photo";
    if truthy has_photo then
      bot_id ← getitem info "id";
      Return (Some (photo_base_url self +:+ "/" +:+ format bot_id +:+ ".jpg"))
    else Return None);
  Return {| id := id; name := name; username := username;
            description := description; warn := warn; msg := msg;
            category := category; groups := groups; inline := inline;
            developer_id := developer_id; stars := stars; votes := votes;
            vote := vote; tags := tags; languages := languages;
            offline := offline; photo := photo; photo_url := photo_url |}.

(** The constructor call of [category_search]: no [photo_url] argument,
    so the field takes its default [None]. *)
Definition Bot_without_photo_url (info : pyval) : outcome Bot :=
  id ← getitem info "id";
  name ← getitem info "name";
  username ← getitem info "username";
  description ← getitem info "description";
  warn ← getitem info "warn";
  msg ← getitem info "msg";
  category ← getitem info "category";
  groups ← truthy <$> getitem info "groups";
  inline ← truthy <$> getitem info "inline";
  developer_id ← getitem info "developer_id" ≫= int;
  stars ← getitem info "stars";
  votes ← getitem info "votes";
  vote ← getitem info "vote";
  tags ← fmap (M := list) (lstrip "#") <$> (getitem info "tags" ≫= call_split);
  languages ← getitem info "languages" ≫= call_split;
  offline ← (λ z, negb (z =? 0)) <$> (getitem info "offline" ≫= int);
  photo ← getitem info "photo";
  Return {| id := id; name := name; username := username;
            description := description; warn := warn; msg := msg;
            category := category; groups := groups; inline := inline;
            developer_id := developer_id; stars := stars; votes := votes;
            vote := vote; tags := tags; languages := languages;
            offline := offline; photo := photo; photo_url := None |}.

(** [result = []; for info in items: bot = Bot(...); result.append(bot)]:
    the loop stops at the first constructor call that raises. *)
Fixpoint for_append (make : pyval → outcome Bot) (result : list Bot)
    (items : list pyval) : outcome (list Bot) :=
  match items with
  | [] => Return result
  | info :: rest =>
      bot ← make info;
      for_append make (result ++ [bot]) rest
  end.

Definition get_bot_id {R : Repr} (self : Client) (username : string) : outcome Bot :=
  let url := api_base_url self +:+ "/getBotID.php" in
  let params := [("username", PyStr username)] in
  data ← http_get self url params;
  raise_if_not_found data;;
  info ← getitem data "result";
  Bot_with_photo_url self info.

(** The [if "result" in data: ... elif "vote" in data: ... else: ...] of
    [get_user_vote]; the value returned is an [int], [False] or [None]. *)
Definition vote_result (data : pyval) : outcome pyval :=
  has_result ← contains "result" data;
  if (has_result : bool) then
    PyInt <$> (getitem data "result" ≫= int)
  else
    has_vote ← contains "vote" data;
    if (has_vote : bool) then Return (PyBool false)
    else Return PyNone.

Definition get_user_vote (self : Client) (bot_id user_id : Z) : outcome pyval :=
  let url := api_base_url self +:+ "/getUserVote.php" in
  let params := [("bot_id", PyInt bot_id); ("user_id", PyInt user_id)] in
  data ← http_get self url params;
  raise_if_not_found data;;
  vote_result data.

(** [search] returns [None] or a list of bots. *)
Definition search {R : Repr} (self : Client) (query : string) : outcome (option (list Bot)) :=
  let url := api_base_url self +:+ "/search.php" in
  let params := [("q", PyStr query)] in
  data ← http_get self url params;
  found ← getitem data "result";
  if negb (truthy found) then Return None
  else
    infos ← getitem data "result" ≫= iterate;
    Some <$> for_append (Bot_with_photo_url self) [] infos.

(** The argument of [category_search]: a member of [enums.Category] or a
    string. *)
Inductive category_arg : Type :=
  | Member (c : enums.Category)
  | Text (s : string).

(** [category.value if isinstance(category, enums.Category) else category] *)
Definition category_param (category : category_arg) : string :=
  match category with
  | Member c => enums.value c
  | Text s => s
  end.

Definition category_search (self : Client) (category : category_arg) : outcome (option (list Bot)) :=
  let url := api_base_url self +:+ "/getCategory.php" in
  let params := [("category", PyStr (category_param category))] in
  data ← http_get self url params;
  found ← getitem data "result";
  if negb (truthy found) then Return None
  else
    infos ← getitem data "result" ≫= iterate;
    Some <$> for_append Bot_without_photo_url [] infos.

End client.

Import client.

(** ** Notions used to state the properties *)

(** The seventeen keys the constructor calls read, in evaluation order. *)
Definition bot_keys : list string :=
  ["id"; "name"; "username"; "description"; "warn"; "msg"; "category";
   "groups"; "inline"; "developer_id"; "stars"; "votes"; "vote"; "tags";
   "languages"; "offline"; "photo"].

(** How the fields of a bot other than [photo_url] relate to the response
    object [d] it was built from. *)
Record fields_of (d : gmap string pyval) (b : Bot) : Prop := {
  of_id : d !! "id" = Some (id b);
  of_name : d !! "name" = Some (name b);
  of_username : d !! "username" = Some (username b);
  of_description : d !! "description" = Some (description b);
  of_warn : d !! "warn" = Some (warn b);
  of_msg : d !! "msg" = Some (msg b);
  of_category : d !! "category" = Some (category b);
  of_groups : ∃ v, d !! "groups" = Some v ∧ groups b = truthy v;
  of_inline : ∃ v, d !! "inline" = Some v ∧ inline b = truthy v;
  of_developer_id :
    ∃ v, d !! "developer_id" = Some v ∧ int v = Return (developer_id b);
  of_stars : d !! "stars" = Some (stars b);
  of_votes : d !! "votes" = Some (votes b);
  of_vote : d !! "vote" = Some (vote b);
  of_tags :
    ∃ s, d !! "tags" = Some (PyStr s) ∧ tags b = lstrip "#" <$> split s;
  of_languages :
    ∃ s, d !! "languages" = Some (PyStr s) ∧ languages b = split s;
  of_offline :
    ∃ v z, d !! "offline" = Some v ∧ int v = Return z
           ∧ offline b = negb (z =? 0);
  of_photo : d !! "photo" = Some (photo b)
}.

(** The value [photo_url] has on the [get_bot_id] and [search] paths. *)
Definition derived_photo_url {R : Repr} (self : Client) (id photo : pyval) : option string :=
  if truthy photo
  then Some (photo_base_url self +:+ "/" +:+ format id +:+ ".jpg")
  else None.


(** The bot [b] with its [photo_url] replaced. *)
Definition with_photo_url (b : Bot) (url : option string) : Bot :=
  {| id := id b; name := name b; username := username b;
     description := description b; warn := warn b; msg := msg b;
     category := category b; groups := groups b; inline := inline b;
     developer_id := developer_id b; stars := stars b; votes := votes b;
     vote := vote b; tags := tags b; languages := languages b;
     offline := offline b; photo := photo b; photo_url := url |}.

(** The response objects from which a constructor call returns a bot:
    every key is present, [tags] and [languages] are strings, and [int]
    accepts [developer_id] and [offline]. *)
Definition mappable (d : gmap string pyval) : Prop :=
  (∀ k, k ∈ bot_keys → is_Some (d !! k))
  ∧ (∃ s, d !! "tags" = Some (PyStr s))
  ∧ (∃ s, d !! "languages" = Some (PyStr s))
  ∧ (∃ v z, d !! "developer_id" = Some v ∧ int v = Return z)
  ∧ (∃ v z, d !! "offline" = Some v ∧ int v = Return z).

(** The ways a constructor call on the object [d] can raise [e]. *)
Definition mapping_failure (d : gmap string pyval) (e : exn) : Prop :=
  (∃ k, k ∈ bot_keys ∧ d !! k = None ∧ e = KeyError k)
  ∨ (e = AttributeError
     ∧ ∃ v, (d !! "tags" = Some v ∨ d !! "languages" = Some v)
            ∧ ∀ s, v ≠ PyStr s)
  ∨ (∃ v, (d !! "developer_id" = Some v ∨ d !! "offline" = Some v)
          ∧ int v = Raise e).

(** What [search] and [category_search] do with the decoded body, for the
    constructor call [make] of the method. *)
Definition result_list (make : pyval → outcome Bot) (data : pyval) : outcome (option (list Bot)) :=
  found ← getitem data "result";
  if negb (truthy found) then Return None
  else
    infos ← getitem data "result" ≫= iterate;
    Some <$> for_append make [] infos.

(** The service answers the request for [endpoint] with a body that
    decodes to [data]. *)
Definition answers (self : Client) (endpoint : string)
    (params : list (string * pyval)) (data : pyval) : Prop :=
  http_get self (api_base_url self +:+ endpoint) params = Return data.

(** The body is an object whose ["message"] is the string
    ["bot not found"]. *)
Definition has_sentinel (data : pyval) : Prop :=
  ∃ d, data = PyDict d ∧ d !! "message" = Some (PyStr "bot not found").

(** [bot] carries the photo URL derived from the [id] and [photo] of the
    response object [info]. *)
Definition photo_url_from {R : Repr} (self : Client) (info : pyval) (bot : Bot) : Prop :=
  ∃ d i p, info = PyDict d ∧ d !! "id" = Some i ∧ d !! "photo" = Some p
           ∧ photo_url bot =
               if truthy p
               then Some (photo_base_url self +:+ "/" +:+ format i +:+ ".jpg")
               else None.

(** *** Strings *)

Fixpoint all_chars (P : ascii → bool) (s : string) : bool :=
  match s with
  | EmptyString => true
  | String c rest => P c && all_chars P rest
  end.

Definition starts_with (P : ascii → bool) (s : string) : bool :=
  match s with
  | EmptyString => false
  | String c _ => P c
  end.

(** The whitespace-delimited tokens of a string, left to right: each token
    is a non-empty run of non-space characters, preceded by spaces only
    and followed by a space or by the end of the string. *)
Inductive tokens : string → list string → Prop :=
  | tokens_nil (spaces : string) :
      all_chars isspace spaces → tokens spaces []
  | tokens_cons (spaces word rest : string) (words : list string) :
      all_chars isspace spaces →
      word ≠ "" → all_chars (negb ∘ isspace) word →
      rest = "" ∨ starts_with isspace rest →
      tokens rest words →
      tokens (spaces +:+ word +:+ rest) (word :: words).

Definition is_hash (c : ascii) : bool := Ascii.eqb c "#".

Fixpoint hashes (n : nat) : string :=
  match n with
  | O => ""
  | S n => String "#" (hashes n)
  end.

(** [tag] is [token] without all of its leading ['#'] characters. *)
Definition strips_hashes (token tag : string) : Prop :=
  (∃ n, token = hashes n +:+ tag) ∧ starts_with is_hash tag = false.

(** Following the words "strips exactly one leading '#' character": the
    token without its first character when that is ['#']. *)
Definition strip_one_hash (token : string) : string :=
  match token with
  | String c rest => if is_hash c then rest else token
  | EmptyString => ""
  end.

(** *** The literals [int] accepts *)

(** What may follow the first digit: digits, each preceded by at most one
    underscore. *)
Inductive digit_tail : string → Prop :=
  | tail_end : digit_tail ""
  | tail_digit (c : ascii) (s : string) :
      is_digit c → digit_tail s → digit_tail (String c s)
  | tail_underscore (c : ascii) (s : string) :
      is_digit c → digit_tail s → digit_tail (String "_" (String c s)).

(** Decimal digits with single underscores between them. *)
Definition digit_group (s : string) : Prop :=
  ∃ c tail, s = String c tail ∧ is_digit c ∧ digit_tail tail.

(** Whitespace, an optional sign, a digit group of at most
    [max_str_digits] digits, whitespace. *)
Definition int_literal (s : string) : Prop :=
  ∃ before sign body after,
    s = before +:+ sign +:+ body +:+ after
    ∧ all_chars int_space before
    ∧ (sign = "" ∨ sign = "+" ∨ sign = "-")
    ∧ digit_group body
    ∧ count_digits body <= max_str_digits
    ∧ all_chars int_space after.

(** The objects [int] converts: integers, booleans, finite floats and
    the strings that hold a literal. *)
Definition int_accepts (v : pyval) : Prop :=
  match v with
  | PyInt _ | PyBool _ => True
  | PyFloat (S754_zero _) | PyFloat (S754_finite _ _ _) => True
  | PyFloat _ => False
  | PyStr s => int_literal s
  | PyNone | PyList _ | PyDict _ => False
  end.

(** The exceptions of a failed [int]. *)
Definition conversion_error (e : exn) : Prop :=
  e = TypeError ∨ e = ValueError ∨ e = OverflowError.

(** [bot] is what a constructor call of the client returns on the response
    object [info]: the call of [get_bot_id] and [search], or the call of
    [category_search]. *)
Definition mapped_from {R : Repr} (self : Client) (info : pyval) (bot : Bot) : Prop :=
  Bot_with_photo_url self info = Return bot
  ∨ Bot_without_photo_url info = Return bot.

(** The exceptions the builtins raise. *)
Definition builtin_error (e : exn) : Prop :=
  match e with
  | BotNotFound _ | HTTPError => False
  | _ => True
  end.

(** Following the words "a string of decimal digits with optional sign". *)
Definition signed_digits (s : string) : Prop :=
  ∃ sign digits,
    s = sign +:+ digits
    ∧ (sign = "" ∨ sign = "+" ∨ sign = "-")
    ∧ digits ≠ "" ∧ all_chars is_digit digits.

(** A string of at most [max_str_digits] decimal digits with optional
    sign. *)
Definition short_signed_digits (s : string) : Prop :=
  ∃ sign digits,
    s = sign +:+ digits
    ∧ (sign = "" ∨ sign = "+" ∨ sign = "-")
    ∧ digits ≠ "" ∧ all_chars is_digit digits
    ∧ Z.of_nat (String.length digits) <= max_str_digits.

(** Following the words "an integer or a string of decimal digits with
    optional sign". *)
Definition integer_or_signed_digits (v : pyval) : Prop :=
  match v with
  | PyInt _ => True
  | PyStr s => signed_digits s
  | _ => False
  end.

(** *** Sample responses *)

(** The object of the bot ["vote"] shown in the docstring of [get_bot_id],
    with [offline] ["0"], [groups] [0] and [inline] [1]; the float is
    4.1. *)
Definition vote_bot : gmap string pyval :=
  list_to_map
    [("id", PyInt 1); ("name", PyStr "Votebot"); ("username", PyStr "@vote");
     ("description", PyStr "Votebot creates anonymous and public polls.");
     ("warn", PyNone); ("msg", PyStr "http://t.me/BotsArchive/79");
     ("category", PyList [PyStr "poll"]); ("groups", PyInt 0);
     ("inline", PyInt 1); ("developer_id", PyInt 0); ("stars", PyInt 770);
     ("votes", PyInt 189);
     ("vote", PyFloat (S754_finite false 4616189618054758 (-50)));
     ("tags", PyStr "#vote #poll #like"); ("languages", PyStr "English");
     ("offline", PyStr "0"); ("photo", PyBool true)].

(** The bot [get_bot_id] and [search] build from [vote_bot] with the
    default photo URL. *)
Definition vote_Bot : Bot :=
  {| id := PyInt 1; name := PyStr "Votebot"; username := PyStr "@vote";
     description := PyStr "Votebot creates anonymous and public polls.";
     warn := PyNone; msg := PyStr "http://t.me/BotsArchive/79";
     category := PyList [PyStr "poll"]; groups := false; inline := true;
     developer_id := 0; stars := PyInt 770; votes := PyInt 189;
     vote := PyFloat (S754_finite false 4616189618054758 (-50));
     tags := ["vote"; "poll"; "like"]; languages := ["English"];
     offline := false; photo := PyBool true;
     photo_url := Some "https://www.botsarchive.com/img/1.jpg" |}.

(** A body [{"result": info}]. *)
Definition result_body (info : pyval) : pyval := PyDict {[ "result" := info ]}.

(** A client with the default URLs whose every request is answered with
    [body]. *)
Definition client_answering (body : pyval) : Client :=
  new (λ _ _, Return body).

(** A rendering of floats, lists and dicts to instantiate [Repr] with. *)
Definition plain_repr : Repr := λ _, "".

(** A body with the sentinel message next to a well-formed result. *)
Definition not_found_body : pyval :=
  PyDict {[ "message" := PyStr "bot not found"; "result" := PyDict vote_bot ]}.

(** A vote body with both keys. *)
Definition vote_body : gmap string pyval :=
  {[ "result" := PyStr "5"; "vote" := PyStr "x" ]}.

(** A search result whose second bot has the [offline] value ["0.5"]. *)
Definition half_offline_bot : gmap string pyval :=
  <["offline" := PyStr "0.5"]> vote_bot.

Definition half_offline_body : pyval :=
  result_body (PyList [PyDict vote_bot; PyDict half_offline_bot]).

(** *** Notions for the further properties *)

(** [bot] without its photo URL. *)
Definition erase_photo_url (bot : Bot) : Bot := with_photo_url bot None.

(** The raw string of the service for a list of tags: each tag prefixed
    with ['#'], the tokens joined by single spaces. *)
Definition encode_tags (tags : list string) : string :=
  String.concat " " ((λ tag, "#" +:+ tag) <$> tags).

(** The values [get_user_vote] can return: an [int], [False] or [None]. *)
Definition vote_value (r : pyval) : Prop :=
  (∃ z, r = PyInt z) ∨ r = PyBool false ∨ r = PyNone.

(** The request of each method: the endpoint and the query parameters. *)
Definition get_bot_id_params (username : string) : list (string * pyval) :=
  [("username", PyStr username)].
Definition get_user_vote_params (bot_id user_id : Z) : list (string * pyval) :=
  [("bot_id", PyInt bot_id); ("user_id", PyInt user_id)].
Definition search_params (query : string) : list (string * pyval) :=
  [("q", PyStr query)].
Definition category_search_params (category : category_arg) : list (string * pyval) :=
  [("category", PyStr (category_param category))].

(** The body the service sends for an unknown bot. *)
Definition only_message : gmap string pyval :=
  {[ "message" := PyStr "bot not found" ]}.

(** A result of [search] with the photo URL of every bot dropped. *)
Definition erase_photo_urls (r : option (list Bot)) : option (list Bot) :=
  fmap (M := list) erase_photo_url <$> r.

(** A client whose transport answers no request and reports the value of
    the parameter it was sent, in the [KeyError] it raises. *)
Definition client_reporting : Client :=
  {| api_base_url := API_BASE_URL;
     photo_base_url := PHOTO_BASE_URL;
     http_get := λ _ params,
       match params with
       | [(_, PyStr sent)] => Raise (KeyError sent)
       | _ => Raise HTTPError
       end |}.

(** The magnitude of a finite float, cut to an integer: [m * 2 ^ e]
    without its fractional part. *)
Definition truncated_magnitude (m : positive) (e : Z) : Z :=
  if 0 <=? e then Z.pos m * 2 ^ e else Z.pos m ÷ 2 ^ (- e).
(** ** The outcome monad *)

Section Outcome.
Context {A B : Type}.

Lemma bind_Return (m : outcome A) (k : A → outcome B) (b : B) :
  m ≫= k = Return b ↔ ∃ a, m = Return a ∧ k a = Return b.
Proof.
  destruct m as [a|e]; simpl; split.
  - intros H. by exists a.
  - by intros (a' & [= <-] & H).
  - discriminate.
  - by intros (a' & [=] & _).
Qed.

Lemma bind_Raise (m : outcome A) (k : A → outcome B) (e : exn) :
  m ≫= k = Raise e ↔ m = Raise e ∨ ∃ a, m = Return a ∧ k a = Raise e.
Proof.
  destruct m as [a|e']; simpl; split.
  - intros H. right. by exists a.
  - by intros [[=]|(a' & [= <-] & H)].
  - intros [= ->]. by left.
  - by intros [[= ->]|(a' & [=] & _)].
Qed.

Lemma fmap_Return (f : A → B) (m : outcome A) (b : B) :
  f <$> m = Return b ↔ ∃ a, m = Return a ∧ b = f a.
Proof.
  destruct m as [a|e]; simpl; split.
  - intros [= <-]. by exists a.
  - by intros (a' & [= <-] & ->).
  - discriminate.
  - by intros (a' & [=] & _).
Qed.

Lemma fmap_Raise (f : A → B) (m : outcome A) (e : exn) :
  f <$> m = Raise e ↔ m = Raise e.
Proof. destruct m; simpl; split; congruence. Qed.
End Outcome.

(** ** Subscripts and membership *)

Lemma getitem_dict (d : gmap string pyval) (key : string) :
  getitem (PyDict d) key = from_option Return (Raise (KeyError key)) (d !! key).
Proof. simpl. by destruct (d !! key). Qed.

Lemma getitem_Return (v : pyval) (key : string) (x : pyval) :
  getitem v key = Return x ↔ ∃ d, v = PyDict d ∧ d !! key = Some x.
Proof.
  split.
  - destruct v; simpl; try discriminate.
    destruct (d !! key) eqn:E; [|discriminate]. intros [= <-]. eauto.
  - intros (d & -> & E). simpl. by rewrite E.
Qed.

Lemma getitem_Raise (v : pyval) (key : string) (e : exn) :
  getitem v key = Raise e →
  (e = TypeError ∧ ∀ d, v ≠ PyDict d)
  ∨ (e = KeyError key ∧ ∃ d, v = PyDict d ∧ d !! key = None).
Proof.
  destruct v; simpl; try (intros [= <-]; by left).
  destruct (d !! key) eqn:E; [discriminate|].
  intros [= <-]. right. eauto.
Qed.

Lemma getitem_dict_Return (d : gmap string pyval) (key : string) (x : pyval) :
  getitem (PyDict d) key = Return x ↔ d !! key = Some x.
Proof.
  rewrite getitem_Return. split.
  - by intros (d' & [= <-] & E).
  - eauto.
Qed.

Lemma call_split_Return (v : pyval) (ws : list string) :
  call_split v = Return ws ↔ ∃ s, v = PyStr s ∧ ws = split s.
Proof.
  split.
  - destruct v; simpl; try discriminate. intros [= <-]. eauto.
  - by intros (s & -> & ->).
Qed.

(** ** The constructor calls *)

(** Turn the steps of a successful constructor call into lookups. *)
Local Ltac lookups :=
  repeat match goal with
  | H : _ ≫= _ = Return _ |- _ => apply bind_Return in H as (? & ? & H)
  | H : _ <$> _ = Return _ |- _ => apply fmap_Return in H as (? & H & ?)
  | H : getitem (PyDict _) _ = Return _ |- _ => apply getitem_dict_Return in H
  | H : call_split _ = Return _ |- _ => apply call_split_Return in H as (? & ? & ?)
  end.

Lemma Bot_without_photo_url_Return (info : pyval) (b : Bot) :
  Bot_without_photo_url info = Return b ↔
  ∃ d, info = PyDict d ∧ fields_of d b ∧ photo_url b = None.
Proof.
  split.
  - intros H. destruct info as [| | | | | |d]; try discriminate H.
    exists d. split; [done|].
    unfold Bot_without_photo_url in H.
    do 17 (apply bind_Return in H as (? & ? & H); cbv beta in H).
    injection H as <-. lookups. subst.
    split; [split|]; simpl; eauto.
  - intros (d & -> & [] & Hurl). destruct b; simpl in *.
    repeat match goal with
    | H : ∃ _, _ |- _ => destruct H
    | H : _ ∧ _ |- _ => destruct H
    end.
    unfold Bot_without_photo_url.
    rewrite !getitem_dict.
    repeat match goal with
    | H : _ !! _ = Some _ |- _ => rewrite H; clear H
    end.
    simpl.
    repeat match goal with
    | H : int _ = Return _ |- _ => rewrite H; clear H
    end.
    simpl. by subst.
Qed.

Local Ltac key_in :=
  apply list_elem_of_In; simpl; repeat first [left; reflexivity | right].

Local Ltac step :=
  cbn [from_option mbind outcome_bind fmap outcome_fmap].

(** The two constructor calls evaluate the same seventeen arguments; the
    by-id and search call then derives [photo_url], which cannot raise
    once [id] and [photo] have been read. *)
Lemma Bot_with_photo_url_eq {R : Repr} (self : Client) (info : pyval) :
  Bot_with_photo_url self info =
  b ← Bot_without_photo_url info;
  Return (with_photo_url b (derived_photo_url self (id b) (photo b))).
Proof.
  destruct info as [| | | | | |d]; try reflexivity.
  unfold Bot_with_photo_url, Bot_without_photo_url, derived_photo_url.
  rewrite !getitem_dict.
  repeat match goal with
  | |- context [from_option _ _ (d !! ?k)] =>
      destruct (d !! k) as [?|]; step; [|reflexivity]
  | |- context [int ?v] => destruct (int v); step; [|reflexivity]
  | |- context [call_split ?v] => destruct (call_split v); step; [|reflexivity]
  end.
  unfold with_photo_url; cbn [id photo]. by case_match.
Qed.

Lemma Bot_with_photo_url_Return {R : Repr} (self : Client) (info : pyval) (b : Bot) :
  Bot_with_photo_url self info = Return b ↔
  ∃ d, info = PyDict d ∧ fields_of d b
       ∧ photo_url b = derived_photo_url self (id b) (photo b).
Proof.
  rewrite Bot_with_photo_url_eq, bind_Return. split.
  - intros (b0 & (d & -> & [] & Hnone)%Bot_without_photo_url_Return & [= <-]).
    exists d. by repeat split.
  - intros (d & -> & Hf & Hurl).
    exists (with_photo_url b None). split.
    + apply Bot_without_photo_url_Return. exists d.
      destruct Hf. by repeat split.
    + destruct b; simpl in *. by subst.
Qed.

Lemma Bot_with_photo_url_Raise {R : Repr} (self : Client) (info : pyval) (e : exn) :
  Bot_with_photo_url self info = Raise e ↔ Bot_without_photo_url info = Raise e.
Proof. rewrite Bot_with_photo_url_eq. by destruct (Bot_without_photo_url info). Qed.

Lemma call_split_Raise (v : pyval) (e : exn) :
  call_split v = Raise e → e = AttributeError ∧ ∀ s, v ≠ PyStr s.
Proof. destruct v; simpl; intros [= <-]; done. Qed.

Lemma Bot_without_photo_url_Raise (d : gmap string pyval) (e : exn) :
  Bot_without_photo_url (PyDict d) = Raise e → mapping_failure d e.
Proof.
  unfold Bot_without_photo_url, mapping_failure, bot_keys.
  rewrite !getitem_dict.
  repeat match goal with
  | |- context [from_option _ _ (d !! ?k)] =>
      destruct (d !! k) as [?|] eqn:?; step;
      [|intros [= <-]; left; eexists; split; [|done]; key_in]
  | |- context [int ?v] =>
      destruct (int v) eqn:?; step;
      [|intros [= <-]; right; right; eauto]
  | |- context [call_split ?v] =>
      let H := fresh "Hsplit" in
      destruct (call_split v) eqn:H; step;
      [|intros [= <-]; apply call_split_Raise in H as [-> ?];
        right; left; eauto]
  end.
  discriminate.
Qed.

Lemma mappable_Return (d : gmap string pyval) :
  (∃ b, Bot_without_photo_url (PyDict d) = Return b) ↔ mappable d.
Proof.
  split.
  - intros (b & (d' & [= <-] & Hf & _)%Bot_without_photo_url_Return).
    destruct Hf as [? ? ? ? ? ? ? (? & ? & ?) (? & ? & ?) (? & ? & ?)
                    ? ? ? (? & ? & ?) (? & ? & ?) (? & ? & ? & ? & ?) ?].
    split; [|repeat split; eauto].
    intros k Hk. unfold bot_keys in Hk.
    repeat (apply elem_of_cons in Hk as [->|Hk]; [by eauto|]).
    by apply elem_of_nil in Hk.
  - intros (Hkeys & (st & Hst) & (sl & Hsl) & (vd & zd & Hd & Hzd)
            & (vo & zo & Ho & Hzo)).
    assert (∀ k, k ∈ bot_keys → ∃ v, d !! k = Some v) as Hk
      by (intros k Hk; by apply Hkeys).
    unfold bot_keys in Hk.
    destruct (Hk "id") as [vid Hid]; [key_in|].
    destruct (Hk "name") as [vname Hname]; [key_in|].
    destruct (Hk "username") as [vuser Huser]; [key_in|].
    destruct (Hk "description") as [vdesc Hdesc]; [key_in|].
    destruct (Hk "warn") as [vwarn Hwarn]; [key_in|].
    destruct (Hk "msg") as [vmsg Hmsg]; [key_in|].
    destruct (Hk "category") as [vcat Hcat]; [key_in|].
    destruct (Hk "groups") as [vgroups Hgroups]; [key_in|].
    destruct (Hk "inline") as [vinline Hinline]; [key_in|].
    destruct (Hk "stars") as [vstars Hstars]; [key_in|].
    destruct (Hk "votes") as [vvotes Hvotes]; [key_in|].
    destruct (Hk "vote") as [vvote Hvote]; [key_in|].
    destruct (Hk "photo") as [vphoto Hphoto]; [key_in|].
    exists {| id := vid; name := vname; username := vuser;
              description := vdesc; warn := vwarn; msg := vmsg;
              category := vcat; groups := truthy vgroups;
              inline := truthy vinline; developer_id := zd;
              stars := vstars; votes := vvotes; vote := vvote;
              tags := lstrip "#" <$> split st; languages := split sl;
              offline := negb (zo =? 0); photo := vphoto;
              photo_url := None |}.
    apply Bot_without_photo_url_Return. exists d.
    split; [done|]. split; [|done]. split; simpl; eauto.
Qed.

(** ** The loop of [search] and [category_search] *)

Section Loop.
Variable make : pyval → outcome Bot.

Lemma for_append_mapM (result : list Bot) (items : list pyval) :
  for_append make result items = (result ++.) <$> mapM make items.
Proof.
  revert result. induction items as [|info rest IH]; intros result; simpl.
  - by rewrite app_nil_r.
  - destruct (make info) as [bot|e]; simpl; [|done].
    rewrite IH. destruct (mapM make rest) as [bots|e]; simpl; [|done].
    by rewrite <-app_assoc.
Qed.

Lemma mapM_Return (items : list pyval) (bots : list Bot) :
  mapM make items = Return bots ↔
  Forall2 (λ info bot, make info = Return bot) items bots.
Proof.
  revert bots. induction items as [|info rest IH]; intros bots; simpl.
  - split; [intros [= <-]; constructor|by inversion 1].
  - split.
    + destruct (make info) as [bot|e] eqn:Hbot; simpl; [|done].
      destruct (mapM make rest) as [bots'|e] eqn:Hrest; simpl; [|done].
      intros [= <-]. constructor; [done|]. by apply IH.
    + inversion 1 as [|? bot ? bots' Hbot Hrest]; subst.
      apply IH in Hrest. by rewrite Hbot, Hrest.
Qed.

(** The loop raises what the first failing constructor call raises. *)
Lemma mapM_Raise (items : list pyval) (e : exn) :
  mapM make items = Raise e →
  ∃ seen bots info rest,
    items = (seen ++ info :: rest)%list
    ∧ Forall2 (λ info bot, make info = Return bot) seen bots
    ∧ make info = Raise e.
Proof.
  induction items as [|info rest IH]; simpl; [done|].
  destruct (make info) as [bot|e'] eqn:Hbot; simpl.
  - destruct (mapM make rest) as [bots'|e'] eqn:Hrest; simpl; [done|].
    intros [= ->].
    destruct (IH eq_refl) as (seen & bots & info' & rest' & -> & Hseen & Hraise).
    exists (info :: seen), (bot :: bots), info', rest'.
    split; [done|]. split; [by constructor|done].
  - intros [= ->]. exists [], [], info, rest.
    split; [done|]. split; [constructor|done].
Qed.

Lemma for_append_Return (items : list pyval) (bots : list Bot) :
  for_append make [] items = Return bots ↔
  Forall2 (λ info bot, make info = Return bot) items bots.
Proof.
  rewrite for_append_mapM, <-mapM_Return.
  destruct (mapM make items); simpl; split; congruence.
Qed.

Lemma result_list_falsy (data found : pyval) :
  getitem data "result" = Return found → truthy found = false →
  result_list make data = Return None.
Proof. intros Hget Hfalse. unfold result_list. by rewrite Hget; simpl; rewrite Hfalse. Qed.

Lemma result_list_nonempty (data : pyval) (infos : list pyval) :
  getitem data "result" = Return (PyList infos) → infos ≠ [] →
  result_list make data = Some <$> mapM make infos.
Proof.
  intros Hget Hne. unfold result_list. rewrite Hget; simpl.
  destruct infos as [|info rest]; [done|]. cbn [length Nat.eqb negb].
  rewrite for_append_mapM.
  by destruct (mapM make (info :: rest)).
Qed.

(** A string and a dict are iterable, but what they yield are strings,
    which no constructor call accepts. *)
Hypothesis make_str : ∀ s, make (PyStr s) = Raise TypeError.

Lemma result_list_Some (data : pyval) (bots : list Bot) :
  result_list make data = Return (Some bots) →
  ∃ infos, getitem data "result" = Return (PyList infos) ∧ infos ≠ []
           ∧ Forall2 (λ info bot, make info = Return bot) infos bots.
Proof.
  unfold result_list. intros (found & Hget & H)%bind_Return.
  rewrite Hget in H |- *.
  destruct (truthy found) eqn:Htrue; simpl in H; [|done].
  destruct found as [| | | |s|infos|d]; try done.
  - destruct s as [|c s]; [done|]. simpl in H. by rewrite make_str in H.
  - exists infos. split; [done|]. split.
    + by intros ->.
    + apply for_append_Return. simpl in H.
      destruct (for_append make [] infos); simpl in H; congruence.
  - simpl in H, Htrue.
    destruct (map_to_list d) as [|[k v] kvs] eqn:Hkeys.
    + apply map_to_list_empty_iff in Hkeys as ->.
      by rewrite map_size_empty in Htrue.
    + simpl in H. by rewrite make_str in H.
Qed.

Lemma result_list_never_empty (data : pyval) :
  result_list make data ≠ Return (Some []).
Proof.
  intros (infos & _ & Hne & Hall)%result_list_Some.
  by inversion Hall.
Qed.
End Loop.

Lemma Bot_with_photo_url_str {R : Repr} (self : Client) (s : string) :
  Bot_with_photo_url self (PyStr s) = Raise TypeError.
Proof. reflexivity. Qed.

Lemma Bot_without_photo_url_str (s : string) :
  Bot_without_photo_url (PyStr s) = Raise TypeError.
Proof. reflexivity. Qed.

(** ** The "bot not found" check and the vote *)

Lemma eq_str_true (v : pyval) (s : string) : eq_str v s = true ↔ v = PyStr s.
Proof.
  destruct v; simpl; try (split; [discriminate|by intros [=]]).
  rewrite String.eqb_eq. split; [by intros ->|by intros [= ->]].
Qed.

Lemma raise_if_not_found_sentinel (data : pyval) :
  has_sentinel data →
  raise_if_not_found data = Raise (BotNotFound (PyStr "bot not found")).
Proof.
  intros (d & -> & Hmsg). unfold raise_if_not_found. simpl.
  rewrite Hmsg. by rewrite bool_decide_true by eauto.
Qed.

Lemma raise_if_not_found_dict (d : gmap string pyval) :
  ¬ has_sentinel (PyDict d) → raise_if_not_found (PyDict d) = Return tt.
Proof.
  intros Hno. unfold raise_if_not_found. simpl.
  destruct (d !! "message") as [v|] eqn:Hmsg.
  - rewrite bool_decide_true by eauto. simpl.
    destruct (eq_str v "bot not found") eqn:Heq; [|done].
    apply eq_str_true in Heq as ->. destruct Hno. by exists d.
  - rewrite bool_decide_false; [done|]. by intros [? [=]].
Qed.

(** On a body that is not an object the check returns or raises
    [TypeError]. *)
Lemma raise_if_not_found_other (data : pyval) :
  (∀ d, data ≠ PyDict d) →
  raise_if_not_found data = Return tt ∨ raise_if_not_found data = Raise TypeError.
Proof.
  intros Hnd. unfold raise_if_not_found.
  destruct data as [| | | |s|l|d]; simpl; auto.
  - destruct (bool_decide _); simpl; auto.
  - destruct (existsb _ l); simpl; auto.
  - by destruct (Hnd d).
Qed.

Lemma raise_if_not_found_BotNotFound (data message : pyval) :
  raise_if_not_found data = Raise (BotNotFound message) ↔
  has_sentinel data ∧ message = PyStr "bot not found".
Proof.
  split.
  - intros H.
    assert (∃ d, data = PyDict d) as [d ->].
    { destruct data as [| | | |s|l|d]; eauto;
        match type of H with
        | raise_if_not_found ?x = _ =>
            destruct (raise_if_not_found_other x) as [E|E];
            [done|congruence..]
        end. }
    destruct (d !! "message") as [v|] eqn:Hmsg.
    + destruct (eq_str v "bot not found") eqn:Heq.
      * apply eq_str_true in Heq as ->.
        assert (has_sentinel (PyDict d)) as Hsent by (by exists d).
        rewrite (raise_if_not_found_sentinel _ Hsent) in H.
        by injection H as <-.
      * rewrite raise_if_not_found_dict in H; [done|].
        intros (d' & [= <-] & Hs). rewrite Hs in Hmsg. injection Hmsg as <-.
        by rewrite (proj2 (eq_str_true _ _)) in Heq.
    + rewrite raise_if_not_found_dict in H; [done|].
      intros (d' & [= <-] & Hs). congruence.
  - intros [Hs ->]. by apply raise_if_not_found_sentinel.
Qed.

(** ** [str.split] and [str.lstrip] *)

Lemma append_nil_l (s : string) : "" +:+ s = s.
Proof. reflexivity. Qed.

Lemma append_cons (c : ascii) (s t : string) :
  String c s +:+ t = String c (s +:+ t).
Proof. reflexivity. Qed.

Lemma append_nil_r (s : string) : s +:+ "" = s.
Proof.
  induction s as [|c s IH]; [done|]. by rewrite append_cons, IH.
Qed.

Lemma append_assoc (s t u : string) : (s +:+ t) +:+ u = s +:+ (t +:+ u).
Proof.
  induction s as [|c s IH]; [done|]. by rewrite !append_cons, IH.
Qed.

Lemma all_chars_app (P : ascii → bool) (s t : string) :
  all_chars P (s +:+ t) = all_chars P s && all_chars P t.
Proof.
  induction s as [|c s IH]; [done|].
  rewrite append_cons. simpl. by rewrite IH, andb_assoc.
Qed.

Lemma tokens_space (c : ascii) (s : string) (words : list string) :
  isspace c → tokens s words → tokens (String c s) words.
Proof.
  intros Hc [spaces Hsp|spaces word rest words' Hsp Hne Hword Hrest Htl].
  - apply tokens_nil. simpl. by apply andb_True.
  - rewrite <-append_cons.
    apply (tokens_cons (String c spaces)); try done. simpl. by apply andb_True.
Qed.

Lemma split_from_tokens (s word : string) :
  all_chars (negb ∘ isspace) word →
  tokens (word +:+ s) (split_from word s).
Proof.
  revert word. induction s as [|c rest IH]; intros word Hword; simpl.
  - rewrite append_nil_r. destruct word as [|c' word'] eqn:Hw.
    + by apply tokens_nil.
    + rewrite <-(append_nil_r (String c' word')) at 1.
      apply (tokens_cons "" (String c' word') ""); try done.
      * by left.
      * by apply tokens_nil.
  - destruct (isspace c) eqn:Hc.
    + assert (tokens (String c rest) (split_from "" rest)) as Hrest.
      { apply tokens_space; [by rewrite Hc|]. by apply (IH ""). }
      destruct word as [|c' word'] eqn:Hw; [done|].
      apply (tokens_cons "" (String c' word') (String c rest)); try done.
      right. simpl. by rewrite Hc.
    + specialize (IH (word +:+ String c "")).
      rewrite append_assoc in IH. apply IH.
      rewrite all_chars_app. simpl.
      rewrite Hc. simpl. by rewrite !andb_true_r.
Qed.

(** [split] computes the tokens of its argument. *)
Lemma split_tokens (s : string) : tokens s (split s).
Proof. by apply (split_from_tokens s ""). Qed.

(** A prefix of characters satisfying [P], followed by the end of the
    string or by a character satisfying [Q], is determined by the whole
    string when [P] and [Q] exclude each other. *)
Lemma span_unique (P Q : ascii → bool) (a a' b b' : string) :
  (∀ c, P c → Q c → False) →
  all_chars P a → all_chars P a' →
  b = "" ∨ starts_with Q b → b' = "" ∨ starts_with Q b' →
  a +:+ b = a' +:+ b' → a = a' ∧ b = b'.
Proof.
  intros HPQ. revert a'.
  induction a as [|c a IH]; intros [|c' a'] Ha Ha' Hb Hb' Heq;
    rewrite ?append_cons, ?append_nil_l in Heq.
  - done.
  - subst b. simpl in Ha', Hb. apply andb_True in Ha' as [Hc _].
    destruct Hb as [|Hb]; [done|]. destruct (HPQ c' Hc Hb).
  - subst b'. simpl in Ha, Hb'. apply andb_True in Ha as [Hc _].
    destruct Hb' as [|Hb']; [done|]. destruct (HPQ c Hc Hb').
  - injection Heq as <- Heq. simpl in Ha, Ha'.
    apply andb_True in Ha as [_ Ha]. apply andb_True in Ha' as [_ Ha'].
    destruct (IH a' Ha Ha' Hb Hb' Heq) as [-> ->]. done.
Qed.

Lemma starts_with_app (P : ascii → bool) (word rest : string) :
  word ≠ "" → all_chars P word → starts_with P (word +:+ rest).
Proof.
  destruct word as [|c word]; [done|]. simpl.
  intros _ [Hc _]%andb_True. done.
Qed.

Lemma isspace_exclusive (c : ascii) : isspace c → (negb ∘ isspace) c → False.
Proof. unfold compose. by destruct (isspace c). Qed.

(** A string has only one sequence of tokens. *)
Lemma tokens_unique (s : string) (words words' : list string) :
  tokens s words → tokens s words' → words = words'.
Proof.
  intros H. revert words'.
  induction H as [spaces Hsp|spaces word rest words Hsp Hne Hword Hrest Htl IH];
    intros words' H'.
  - inversion H' as [|spaces' word' rest' ws' Hsp' Hne' Hword' Hrest' Htl' Heq];
      [done|subst].
    rewrite !all_chars_app in Hsp.
    apply andb_True in Hsp as [_ [Hw _]%andb_True].
    destruct word' as [|c w]; [done|]. simpl in Hw, Hword'.
    apply andb_True in Hw as [Hc _]. apply andb_True in Hword' as [Hc' _].
    destruct (isspace_exclusive c Hc Hc').
  - remember (spaces +:+ word +:+ rest) as s eqn:Hs.
    destruct H' as [spaces' Hsp'|spaces' word' rest' ws' Hsp' Hne' Hword' Hrest' Htl'].
    + subst spaces'. rewrite !all_chars_app in Hsp'.
      apply andb_True in Hsp' as [_ [Hw _]%andb_True].
      destruct word as [|c w]; [done|]. simpl in Hw, Hword.
      apply andb_True in Hw as [Hc _]. apply andb_True in Hword as [Hc' _].
      destruct (isspace_exclusive c Hc Hc').
    + apply (span_unique isspace (negb ∘ isspace)) in Hs as [-> Hs];
        try done; try (right; by apply starts_with_app);
        [|apply isspace_exclusive].
      apply (span_unique (negb ∘ isspace) isspace) in Hs as [-> ->];
        try done; [|intros c ??; by apply (isspace_exclusive c)].
      f_equal. by apply IH.
Qed.

Lemma split_spec (s : string) (words : list string) :
  tokens s words ↔ words = split s.
Proof.
  split.
  - intros H. apply (tokens_unique s); [done|apply split_tokens].
  - intros ->. apply split_tokens.
Qed.

Lemma mem_char_hash (c : ascii) : mem_char c "#" = is_hash c.
Proof. simpl. by rewrite orb_false_r. Qed.

Lemma lstrip_strips_hashes (token : string) :
  strips_hashes token (lstrip "#" token).
Proof.
  induction token as [|c token [[n IH] Hhead]].
  - split; [by exists 0%nat|done].
  - cbn [lstrip]. rewrite mem_char_hash.
    destruct (is_hash c) eqn:Hc.
    + split; [|done]. exists (S n). simpl. rewrite append_cons.
      unfold is_hash in Hc. apply Ascii.eqb_eq in Hc as ->. by rewrite <-IH.
    + split; [by exists 0%nat|]. simpl. done.
Qed.

Lemma strips_hashes_lstrip (token tag : string) :
  strips_hashes token tag ↔ tag = lstrip "#" token.
Proof.
  split; [|intros ->; apply lstrip_strips_hashes].
  intros [[n ->] Hhead]. induction n as [|n IH]; cbn [hashes].
  - rewrite append_nil_l. destruct tag as [|c tag]; [done|].
    cbn [lstrip]. rewrite mem_char_hash. simpl in Hhead. by rewrite Hhead.
  - rewrite append_cons. cbn [lstrip]. by rewrite mem_char_hash.
Qed.

Lemma lstrip_no_hash (token : string) :
  starts_with is_hash (lstrip "#" token) = false.
Proof. apply lstrip_strips_hashes. Qed.

(** ** [int] *)

Local Ltac by_cases c := destruct c as [[] [] [] [] [] [] [] []]; done.

Lemma digit_not_underscore (c : ascii) : is_digit c → is_underscore c = false.
Proof. by_cases c. Qed.

Lemma digit_true (c : ascii) : is_digit c → is_digit c = true.
Proof. apply Is_true_true_1. Qed.

Lemma digit_not_space (c : ascii) : is_digit c → int_space c = false.
Proof. by_cases c. Qed.

Lemma space_not_digit (c : ascii) :
  int_space c → is_digit c || is_underscore c = false.
Proof. by_cases c. Qed.

Lemma read_sign_digit (c : ascii) (s : string) :
  is_digit c → read_sign (String c s) = (false, String c s).
Proof. by_cases c. Qed.

Lemma read_sign_sound (s rest : string) (negative : bool) :
  read_sign s = (negative, rest) →
  ∃ sign, s = sign +:+ rest ∧ (sign = "" ∨ sign = "+" ∨ sign = "-").
Proof.
  destruct s as [|c s]; [intros [= <- <-]; exists ""; auto|].
  destruct (Ascii.eqb_spec c "+") as [->|Hplus];
    [intros [= <- <-]; exists "+"; auto|].
  destruct (Ascii.eqb_spec c "-") as [->|Hminus];
    [intros [= <- <-]; exists "-"; auto|].
  assert (read_sign (String c s) = (false, String c s)) as ->
    by (by destruct c as [[] [] [] [] [] [] [] []]).
  intros [= <- <-]. exists "". auto.
Qed.

Lemma skip_space_prefix (s : string) :
  ∃ before, s = before +:+ skip_space s ∧ all_chars int_space before.
Proof.
  induction s as [|c s (before & IH & Hsp)]; [by exists ""|].
  simpl. destruct (int_space c) eqn:Hc.
  - exists (String c before). rewrite append_cons, <-IH.
    split; [done|]. simpl. rewrite Hc. done.
  - by exists "".
Qed.

Lemma skip_space_empty (s : string) :
  skip_space s = "" ↔ all_chars int_space s.
Proof.
  induction s as [|c s IH]; simpl; [done|].
  destruct (int_space c); simpl; [done|]. split; [discriminate|done].
Qed.

Lemma skip_space_app (before s : string) :
  all_chars int_space before → skip_space (before +:+ s) = skip_space s.
Proof.
  induction before as [|c before IH]; [done|].
  rewrite append_cons. simpl. intros [Hc ?]%andb_True.
  apply Is_true_true_1 in Hc as ->. by apply IH.
Qed.

Lemma skip_space_id (s : string) :
  starts_with int_space s = false → skip_space s = s.
Proof. destruct s as [|c s]; simpl; [done|]. by intros ->. Qed.

Lemma scan_digits_sound (s rest : string) (prev : bool) (acc n : Z) :
  scan_digits prev acc s = Some (n, rest) →
  ∃ tail, digit_tail tail
          ∧ if prev then ∃ c, is_digit c ∧ s = String c (tail +:+ rest)
            else s = tail +:+ rest.
Proof.
  revert prev acc. induction s as [|c s IH]; intros prev acc; simpl.
  - destruct prev; [done|]. intros [= <- <-]. exists "". split; [constructor|done].
  - destruct (is_underscore c) eqn:Hu.
    + destruct prev; [done|]. intros (tail & Htail & c' & Hc' & ->)%IH.
      unfold is_underscore in Hu. apply Ascii.eqb_eq in Hu as ->.
      exists (String "_" (String c' tail)). split; [by constructor|done].
    + destruct (is_digit c) eqn:Hd.
      * intros (tail & Htail & ->)%IH. destruct prev.
        -- exists tail. split; [done|]. exists c. by rewrite Hd.
        -- exists (String c tail). split; [|done]. constructor; [|done].
           by rewrite Hd.
      * destruct prev; [done|]. intros [= <- <-].
        exists "". split; [constructor|done].
Qed.

Lemma scan_digits_complete (tail rest : string) :
  digit_tail tail →
  starts_with (λ c, is_digit c || is_underscore c) rest = false →
  ∀ acc, ∃ n, scan_digits false acc (tail +:+ rest) = Some (n, rest).
Proof.
  intros Htail Hrest.
  induction Htail as [|c s Hc _ IH|c s Hc _ IH]; intros acc.
  - rewrite append_nil_l. exists acc. destruct rest as [|c rest]; [done|].
    simpl in Hrest |- *. apply orb_false_iff in Hrest as [-> ->]. done.
  - rewrite append_cons. simpl.
    rewrite (digit_not_underscore c Hc), (digit_true c Hc). apply IH.
  - rewrite !append_cons. cbn [scan_digits].
    change (is_underscore "_") with true. cbn match.
    rewrite (digit_not_underscore c Hc), (digit_true c Hc). apply IH.
Qed.

Lemma count_digits_app (s rest : string) :
  starts_with (λ c, is_digit c || is_underscore c) rest = false →
  count_digits (s +:+ rest) = count_digits s.
Proof.
  intros Hrest. induction s as [|c s IH].
  - rewrite append_nil_l. destruct rest as [|c rest]; [done|].
    simpl in Hrest |- *. apply orb_false_iff in Hrest as [-> ->]. done.
  - rewrite append_cons. simpl. by rewrite IH.
Qed.

Lemma spaces_stop_scan (s : string) :
  all_chars int_space s →
  starts_with (λ c, is_digit c || is_underscore c) s = false.
Proof.
  destruct s as [|c s]; [done|]. simpl.
  intros [Hc _]%andb_True. by apply space_not_digit.
Qed.

(** [int] accepts exactly the strings that hold a literal. *)
Lemma int_of_str_literal (s : string) :
  (∃ z, int_of_str s = Return z) ↔ int_literal s.
Proof.
  unfold int_of_str. split.
  - intros [z H].
    destruct (read_sign (skip_space s)) as [negative s2] eqn:Hsign.
    destruct s2 as [|c s2]; [done|].
    destruct (is_digit c) eqn:Hc; [|done].
    cbn [scan_digits] in H.
    rewrite (digit_not_underscore c), Hc in H by (by rewrite Hc).
    destruct (scan_digits false _ s2) as [[n rest]|] eqn:Hscan; [|done].
    destruct (max_str_digits <? count_digits (String c s2)) eqn:Hmax; [done|].
    destruct (skip_space rest) eqn:Hafter; [|done].
    apply skip_space_empty in Hafter.
    apply scan_digits_sound in Hscan as (tail & Htail & ->).
    apply read_sign_sound in Hsign as (sign & Hs & Hsign).
    destruct (skip_space_prefix s) as (before & Hbefore & Hsp).
    exists before, sign, (String c tail), rest.
    split; [by rewrite Hbefore at 1; rewrite Hs|].
    split; [done|]. split; [done|].
    split; [exists c, tail; by rewrite Hc|].
    split; [|done].
    apply Z.ltb_ge in Hmax.
    by rewrite <-(count_digits_app (String c tail) rest),
      append_cons by (by apply spaces_stop_scan).
  - intros (before & sign & body & after & -> & Hbefore & Hsign
            & (c & tail & -> & Hc & Htail) & Hmax & Hafter).
    rewrite skip_space_app by done.
    assert (read_sign (skip_space (sign +:+ String c tail +:+ after))
            = (bool_decide (sign = "-"), String c (tail +:+ after))) as ->.
    { destruct Hsign as [->| [->| ->]]; rewrite ?append_nil_l, ?append_cons.
      - rewrite skip_space_id by (simpl; by apply digit_not_space).
        by apply read_sign_digit.
      - done.
      - done. }
    rewrite (digit_true c Hc). simpl.
    rewrite (digit_not_underscore c Hc), (digit_true c Hc).
    destruct (scan_digits_complete tail after Htail) with (acc := 10 * 0 + digit_value c)
      as [n ->]; [by apply spaces_stop_scan|].
    rewrite count_digits_app by (by apply spaces_stop_scan).
    cbn [count_digits] in Hmax.
    rewrite (digit_not_underscore c Hc), (digit_true c Hc) in Hmax.
    rewrite (proj2 (Z.ltb_ge _ _) Hmax).
    rewrite (proj2 (skip_space_empty after) Hafter). eauto.
Qed.

Lemma int_Return (v : pyval) : (∃ z, int v = Return z) ↔ int_accepts v.
Proof.
  destruct v as [|b|z|f|s|l|d]; simpl; try (split; [by intros [? [=]]|done]).
  - split; eauto.
  - split; eauto.
  - destruct f; simpl; split; eauto; first [by intros [? [=]]|done].
  - apply int_of_str_literal.
Qed.

Lemma int_Raise (v : pyval) (e : exn) : int v = Raise e → conversion_error e.
Proof.
  unfold conversion_error.
  destruct v as [|b|z|f|s|l|d]; simpl; try (intros [= <-]; auto); try done.
  - destruct f; simpl; intros [= <-]; auto.
  - unfold int_of_str. repeat case_match; intros [= <-]; auto.
Qed.

(** ** The methods *)

Lemma getitem_builtin (v : pyval) (key : string) (e : exn) :
  getitem v key = Raise e → builtin_error e.
Proof. by intros [[-> _]|[-> _]]%getitem_Raise. Qed.

Lemma int_builtin (v : pyval) (e : exn) : int v = Raise e → builtin_error e.
Proof. by intros [->|[->| ->]]%int_Raise. Qed.

Lemma contains_builtin (key : string) (v : pyval) (e : exn) :
  contains key v = Raise e → builtin_error e.
Proof. destruct v; simpl; by intros [= <-]. Qed.

Lemma Bot_without_photo_url_builtin (info : pyval) (e : exn) :
  Bot_without_photo_url info = Raise e → builtin_error e.
Proof.
  destruct info as [| | | | | |d]; try by intros [= <-].
  intros [(k & _ & _ & ->)|[[-> _]|(v & _ & Hint)]]%Bot_without_photo_url_Raise;
    try done.
  by apply int_builtin in Hint.
Qed.

Lemma vote_result_builtin (data : pyval) (e : exn) :
  vote_result data = Raise e → builtin_error e.
Proof.
  unfold vote_result.
  intros [H|(has_result & _ & H)]%bind_Raise; [by apply contains_builtin in H|].
  destruct has_result.
  - apply fmap_Raise, bind_Raise in H as [H|(v & _ & H)].
    + by apply getitem_builtin in H.
    + by apply int_builtin in H.
  - apply bind_Raise in H as [H|(has_vote & _ & H)];
      [by apply contains_builtin in H|].
    by destruct has_vote.
Qed.

Section Methods.
Context {R : Repr} (self : Client) (data : pyval).

Lemma get_bot_id_answers (username : string) :
  answers self "/getBotID.php" [("username", PyStr username)] data →
  get_bot_id self username =
  (raise_if_not_found data;;
   getitem data "result" ≫= Bot_with_photo_url self).
Proof. intros Hdata. unfold get_bot_id. by rewrite Hdata. Qed.

Lemma get_user_vote_answers (bot_id user_id : Z) :
  answers self "/getUserVote.php"
    [("bot_id", PyInt bot_id); ("user_id", PyInt user_id)] data →
  get_user_vote self bot_id user_id =
  (raise_if_not_found data;; vote_result data).
Proof. intros Hdata. unfold get_user_vote. by rewrite Hdata. Qed.

Lemma search_answers (query : string) :
  answers self "/search.php" [("q", PyStr query)] data →
  search self query = result_list (Bot_with_photo_url self) data.
Proof. intros Hdata. unfold search. by rewrite Hdata. Qed.

Lemma category_search_answers (category : category_arg) :
  answers self "/getCategory.php"
    [("category", PyStr (category_param category))] data →
  category_search self category = result_list Bot_without_photo_url data.
Proof. intros Hdata. unfold category_search. by rewrite Hdata. Qed.

(** A bot returned by [get_bot_id] is the constructor call on the
    ["result"] object of a body that passed the check. *)
Lemma get_bot_id_Return (username : string) (bot : Bot) :
  answers self "/getBotID.php" [("username", PyStr username)] data →
  get_bot_id self username = Return bot →
  raise_if_not_found data = Return tt
  ∧ ∃ d, getitem data "result" = Return (PyDict d)
         ∧ Bot_with_photo_url self (PyDict d) = Return bot.
Proof.
  intros Hdata. rewrite (get_bot_id_answers _ Hdata).
  intros ([] & Hcheck & (info & Hget & Hbot)%bind_Return)%bind_Return.
  split; [done|].
  pose proof Hbot as (d & -> & _)%Bot_with_photo_url_Return. eauto.
Qed.

Lemma search_Some (query : string) (bots : list Bot) :
  answers self "/search.php" [("q", PyStr query)] data →
  search self query = Return (Some bots) →
  ∃ infos, getitem data "result" = Return (PyList infos) ∧ infos ≠ []
           ∧ Forall2 (λ info bot, Bot_with_photo_url self info = Return bot)
               infos bots.
Proof.
  intros Hdata. rewrite (search_answers _ Hdata).
  apply result_list_Some. apply Bot_with_photo_url_str.
Qed.

Lemma category_search_Some (category : category_arg) (bots : list Bot) :
  answers self "/getCategory.php"
    [("category", PyStr (category_param category))] data →
  category_search self category = Return (Some bots) →
  ∃ infos, getitem data "result" = Return (PyList infos) ∧ infos ≠ []
           ∧ Forall2 (λ info bot, Bot_without_photo_url info = Return bot)
               infos bots.
Proof.
  intros Hdata. rewrite (category_search_answers _ Hdata).
  apply result_list_Some. apply Bot_without_photo_url_str.
Qed.
End Methods.

Lemma mapM_elem_Raise (make : pyval → outcome Bot) (items : list pyval)
    (info : pyval) (e : exn) :
  info ∈ items → make info = Raise e → ∃ e', mapM make items = Raise e'.
Proof.
  intros Hin Hraise.
  destruct (mapM make items) as [bots|e'] eqn:Hmap; [|eauto].
  apply mapM_Return in Hmap.
  apply list_elem_of_lookup in Hin as [i Hi].
  destruct (Forall2_lookup_l _ _ _ i info Hmap Hi) as (bot & _ & Hbot).
  congruence.
Qed.

(** ** Failures of the mapping *)

Lemma mappable_with_photo_url {R : Repr} (self : Client) (d : gmap string pyval) :
  (∃ bot, Bot_with_photo_url self (PyDict d) = Return bot) ↔ mappable d.
Proof.
  rewrite <-mappable_Return, Bot_with_photo_url_eq. split.
  - intros (bot & (b & Hb & _)%bind_Return). eauto.
  - intros (b & ->). simpl. eauto.
Qed.

Lemma not_Return_Raise {A : Type} (m : outcome A) :
  (∀ a, m ≠ Return a) → ∃ e, m = Raise e.
Proof. destruct m as [a|e]; [intros H; by destruct (H a)|eauto]. Qed.

Lemma digits_tail (s : string) : all_chars is_digit s → digit_tail s.
Proof.
  induction s as [|c s IH]; simpl; [constructor|].
  intros [Hc Hs]%andb_True. constructor; auto.
Qed.

Lemma count_all_digits (s : string) :
  all_chars is_digit s → count_digits s = Z.of_nat (String.length s).
Proof.
  induction s as [|c s IH]; [done|]. intros [Hc Hs]%andb_True.
  cbn [count_digits String.length].
  rewrite (digit_not_underscore c Hc), (digit_true c Hc), (IH Hs). lia.
Qed.

Lemma short_signed_digits_literal (s : string) :
  short_signed_digits s → int_literal s.
Proof.
  intros (sign & digits & -> & Hsign & Hne & Hdigits & Hmax).
  exists "", sign, digits, "". rewrite append_nil_l, append_nil_r.
  split; [done|]. split; [done|]. split; [done|].
  split; [|split; [by rewrite count_all_digits|done]].
  destruct digits as [|c digits]; [done|]. simpl in Hdigits.
  apply andb_True in Hdigits as [Hc Hdigits].
  exists c, digits. split; [done|]. split; [done|]. by apply digits_tail.
Qed.

Lemma not_literal (s : string) (e : exn) :
  int_of_str s = Raise e → ¬ int_literal s.
Proof. intros H [z Hz]%int_of_str_literal. congruence. Qed.

Section Offline.
Context {R : Repr} (self : Client).
Context (d : gmap string pyval) (v : pyval).
Hypothesis offline_v : d !! "offline" = Some v.

Lemma mapped_offline (bot : Bot) :
  mapped_from self (PyDict d) bot →
  ∃ z, int v = Return z ∧ offline bot = negb (z =? 0).
Proof.
  intros [(d' & [= <-] & Hf & _)%Bot_with_photo_url_Return
         |(d' & [= <-] & Hf & _)%Bot_without_photo_url_Return];
    destruct Hf as [_ _ _ _ _ _ _ _ _ _ _ _ _ _ _ (v' & z & Hv & Hz & Ho) _];
    rewrite offline_v in Hv; injection Hv as <-; eauto.
Qed.

Lemma offline_rejected :
  ¬ int_accepts v →
  (∃ e, Bot_with_photo_url self (PyDict d) = Raise e)
  ∧ (∃ e, Bot_without_photo_url (PyDict d) = Raise e).
Proof.
  intros Hno. split; apply not_Return_Raise; intros bot Hbot;
    destruct (mapped_offline bot) as (z & Hz & _);
    try (apply Hno, int_Return; eauto); [by left|by right].
Qed.

(** When the other fields are in order, the exception is that of
    [int]. *)
Lemma offline_error (e : exn) :
  int v = Raise e → mappable (<["offline" := PyInt 0]> d) →
  Bot_with_photo_url self (PyDict d) = Raise e
  ∧ Bot_without_photo_url (PyDict d) = Raise e.
Proof.
  intros He (Hkeys & (st & Hst) & (sl & Hsl) & (vd & zd & Hvd & Hzd) & _).
  rewrite lookup_insert_ne in Hst, Hsl, Hvd by done.
  rewrite Bot_with_photo_url_Raise.
  assert (Bot_without_photo_url (PyDict d) = Raise e); [|done].
  destruct (Bot_without_photo_url (PyDict d)) as [bot|e'] eqn:Hbot.
  { destruct (mapped_offline bot) as (z & Hz & _); [by right|congruence]. }
  apply Bot_without_photo_url_Raise in Hbot
    as [(k & Hk & Hnone & ->)|[[-> (v' & Hv' & Hstr)]|(v' & Hv' & Hint)]].
  - destruct (Hkeys k Hk) as [x Hx].
    destruct (decide (k = "offline")) as [->|Hne]; [congruence|].
    rewrite lookup_insert_ne in Hx by done. congruence.
  - destruct Hv' as [Hv'|Hv'].
    + rewrite Hst in Hv'. injection Hv' as <-. by destruct (Hstr st).
    + rewrite Hsl in Hv'. injection Hv' as <-. by destruct (Hstr sl).
  - destruct Hv' as [Hv'|Hv'].
    + rewrite Hvd in Hv'. injection Hv' as <-. congruence.
    + rewrite offline_v in Hv'. injection Hv' as <-. congruence.
Qed.
End Offline.

(** A string of more than [max_str_digits] digits is refused. *)
Lemma long_digits_refused (digits : string) :
  all_chars is_digit digits →
  max_str_digits < Z.of_nat (String.length digits) →
  int_of_str digits = Raise ValueError.
Proof.
  intros Hdigits Hlong. pose proof (count_all_digits digits Hdigits) as Hcount.
  destruct digits as [|c digits]; [done|].
  pose proof Hdigits as [Hc Htail%digits_tail]%andb_True.
  unfold int_of_str.
  rewrite skip_space_id by (simpl; by apply digit_not_space).
  rewrite (read_sign_digit c digits Hc). cbv beta iota.
  rewrite (digit_true c Hc). cbn [scan_digits].
  rewrite (digit_not_underscore c Hc), (digit_true c Hc).
  destruct (scan_digits_complete digits "" Htail eq_refl
              (10 * 0 + digit_value c)) as [n Hscan].
  rewrite append_nil_r in Hscan. rewrite Hscan, Hcount.
  by rewrite (proj2 (Z.ltb_lt _ _) Hlong).
Qed.

(** [int] of a finite float drops the fractional part of its magnitude. *)
Lemma int_of_float_truncates (s : bool) (m : positive) (e : Z) :
  int_of_float (S754_finite s m e)
  = Return (if s then - truncated_magnitude m e else truncated_magnitude m e).
Proof.
  assert (Z.shiftl (Z.pos m) e = truncated_magnitude m e) as Heq.
  { unfold truncated_magnitude. destruct (Z.leb_spec 0 e) as [He|He].
    - by apply Z.shiftl_mul_pow2.
    - rewrite <-(Z.opp_involutive e) at 1.
      rewrite Z.shiftl_opp_r, Z.shiftr_div_pow2 by lia.
      symmetry. apply Z.quot_div_nonneg; [lia|].
      apply Z.pow_pos_nonneg; lia. }
  simpl. by rewrite Heq.
Qed.

(** ** The properties of the specification *)

(** C1.  On the [get_bot_id] and [search] paths the [photo_url] of a
    returned bot is [photo_base_url + "/" + id + ".jpg"] when the [photo]
    of the response object is truthy, and [None] otherwise. *)
Theorem photo_url_iff_photo {R : Repr} (self : Client) (data : pyval) :
  (∀ username bot,
     answers self "/getBotID.php" [("username", PyStr username)] data →
     get_bot_id self username = Return bot →
     ∃ info, getitem data "result" = Return info
             ∧ photo_url_from self info bot)
  ∧ (∀ query bots,
     answers self "/search.php" [("q", PyStr query)] data →
     search self query = Return (Some bots) →
     ∃ infos, getitem data "result" = Return (PyList infos)
              ∧ Forall2 (photo_url_from self) infos bots).
Proof.
  assert (∀ info bot, Bot_with_photo_url self info = Return bot →
                      photo_url_from self info bot) as Hfrom.
  { intros info bot (d & -> & [] & Hurl)%Bot_with_photo_url_Return.
    exists d, (id bot), (photo bot). by rewrite Hurl. }
  split.
  - intros username bot Hdata Hbot.
    destruct (get_bot_id_Return self data username bot Hdata Hbot)
      as (_ & d & Hget & Hmake).
    exists (PyDict d). split; [done|]. by apply Hfrom.
  - intros query bots Hdata Hbots.
    destruct (search_Some self data query bots Hdata Hbots)
      as (infos & Hget & _ & Hall).
    exists infos. split; [done|].
    eapply Forall2_impl; [exact Hall|]. apply Hfrom.
Qed.

Lemma photo_url_iff_photo_witness :
  (∃ info, getitem (result_body (PyDict vote_bot)) "result" = Return info
           ∧ photo_url_from (R := plain_repr)
               (client_answering (result_body (PyDict vote_bot))) info vote_Bot)
  ∧ (∃ infos,
       getitem (result_body (PyList [PyDict vote_bot])) "result"
       = Return (PyList infos)
       ∧ Forall2
           (photo_url_from (R := plain_repr)
              (client_answering (result_body (PyList [PyDict vote_bot]))))
           infos [vote_Bot]).
Proof.
  split.
  - apply (proj1 (photo_url_iff_photo (R := plain_repr)
                    (client_answering (result_body (PyDict vote_bot)))
                    (result_body (PyDict vote_bot))) "vote" vote_Bot);
      vm_compute; reflexivity.
  - apply (proj2 (photo_url_iff_photo (R := plain_repr)
                    (client_answering (result_body (PyList [PyDict vote_bot])))
                    (result_body (PyList [PyDict vote_bot]))) "vote" [vote_Bot]);
      vm_compute; reflexivity.
Defined.

(** C2, as stated, fails: the body [5] does not hold the sentinel, and
    the check does not let it through; the membership test raises
    [TypeError]. *)
Lemma sentinel_check_counterexample :
  ¬ has_sentinel (PyInt 5)
  ∧ raise_if_not_found (PyInt 5) = Raise TypeError
  ∧ get_bot_id (R := plain_repr) (client_answering (PyInt 5)) "vote"
    = Raise TypeError
  ∧ get_user_vote (client_answering (PyInt 5)) 1 141691961 = Raise TypeError.
Proof. split; [by intros (d & [=] & _)|]. repeat split. Qed.

(** C2, amended.  When the decoded body is an object with a ["message"]
    key whose value is the string ["bot not found"], [get_bot_id] and
    [get_user_vote] raise [BotNotFound] with that message, whatever else
    the body holds; no other body makes them raise [BotNotFound]; on every
    other object the check returns and the method goes on to the mapping,
    or to the interpretation of the vote; on a body that is not an object
    the check returns or raises [TypeError]. *)
Theorem bot_not_found_sentinel {R : Repr} (self : Client) (data : pyval) :
  (∀ username,
     answers self "/getBotID.php" [("username", PyStr username)] data →
     (has_sentinel data →
      get_bot_id self username = Raise (BotNotFound (PyStr "bot not found")))
     ∧ (∀ message, get_bot_id self username = Raise (BotNotFound message) →
                   has_sentinel data)
     ∧ (∀ d, data = PyDict d → ¬ has_sentinel data →
             raise_if_not_found data = Return tt
             ∧ get_bot_id self username =
               getitem data "result" ≫= Bot_with_photo_url self))
  ∧ (∀ bot_id user_id,
     answers self "/getUserVote.php"
       [("bot_id", PyInt bot_id); ("user_id", PyInt user_id)] data →
     (has_sentinel data →
      get_user_vote self bot_id user_id
      = Raise (BotNotFound (PyStr "bot not found")))
     ∧ (∀ message,
          get_user_vote self bot_id user_id = Raise (BotNotFound message) →
          has_sentinel data)
     ∧ (∀ d, data = PyDict d → ¬ has_sentinel data →
             raise_if_not_found data = Return tt
             ∧ get_user_vote self bot_id user_id = vote_result data))
  ∧ ((∀ d, data ≠ PyDict d) →
     raise_if_not_found data = Return tt
     ∨ raise_if_not_found data = Raise TypeError).
Proof.
  split; [|split; [|apply raise_if_not_found_other]].
  - intros username Hdata. rewrite (get_bot_id_answers _ _ _ Hdata).
    split; [|split].
    + intros Hs. by rewrite (raise_if_not_found_sentinel _ Hs).
    + intros message [H|([] & _ & H)]%bind_Raise.
      * by apply raise_if_not_found_BotNotFound in H as [? _].
      * apply bind_Raise in H as [H|(info & _ & H)].
        -- by apply getitem_builtin in H.
        -- by apply Bot_with_photo_url_Raise, Bot_without_photo_url_builtin in H.
    + intros d -> Hno. by rewrite (raise_if_not_found_dict _ Hno).
  - intros bot_id user_id Hdata. rewrite (get_user_vote_answers _ _ _ _ Hdata).
    split; [|split].
    + intros Hs. by rewrite (raise_if_not_found_sentinel _ Hs).
    + intros message [H|([] & _ & H)]%bind_Raise.
      * by apply raise_if_not_found_BotNotFound in H as [? _].
      * by apply vote_result_builtin in H.
    + intros d -> Hno. by rewrite (raise_if_not_found_dict _ Hno).
Qed.

Lemma bot_not_found_sentinel_witness :
  get_bot_id (R := plain_repr) (client_answering not_found_body) "vote"
  = Raise (BotNotFound (PyStr "bot not found"))
  ∧ get_user_vote (client_answering not_found_body) 1 141691961
    = Raise (BotNotFound (PyStr "bot not found")).
Proof.
  assert (has_sentinel not_found_body) as Hs.
  { eexists. split; [reflexivity|]. vm_compute. reflexivity. }
  split.
  - by apply (proj1 (bot_not_found_sentinel (R := plain_repr)
                       (client_answering not_found_body) not_found_body)
                "vote").
  - by apply (proj1 (proj2 (bot_not_found_sentinel (R := plain_repr)
                       (client_answering not_found_body) not_found_body))
                1 141691961).
Defined.

(** C3, as stated, fails: the payload [null] is not the sentinel and holds
    neither key, and [get_user_vote] does not return [None]; the
    membership test raises [TypeError]. *)
Lemma vote_interpretation_counterexample :
  ¬ has_sentinel PyNone
  ∧ vote_result PyNone = Raise TypeError
  ∧ get_user_vote (client_answering PyNone) 1 141691961 = Raise TypeError.
Proof. split; [by intros (d & [=] & _)|]. by split. Qed.

(** C3, amended.  On an object that is not the sentinel, [get_user_vote]
    returns [int] of the value of ["result"] when that key is present,
    whether or not ["vote"] is; [False] when ["vote"] is present and
    ["result"] is not; [None] when neither is.  On a payload that is not
    an object it raises [TypeError] or returns [False] or [None]. *)
Theorem vote_interpretation (self : Client) (bot_id user_id : Z)
    (data : pyval) :
  answers self "/getUserVote.php"
    [("bot_id", PyInt bot_id); ("user_id", PyInt user_id)] data →
  ¬ has_sentinel data →
  (∀ d, data = PyDict d →
     (∀ v, d !! "result" = Some v →
           get_user_vote self bot_id user_id = PyInt <$> int v)
     ∧ (∀ v z, d !! "result" = Some v → int v = Return z →
               get_user_vote self bot_id user_id = Return (PyInt z))
     ∧ (d !! "result" = None → is_Some (d !! "vote") →
        get_user_vote self bot_id user_id = Return (PyBool false))
     ∧ (d !! "result" = None → d !! "vote" = None →
        get_user_vote self bot_id user_id = Return PyNone))
  ∧ ((∀ d, data ≠ PyDict d) →
     get_user_vote self bot_id user_id = Raise TypeError
     ∨ get_user_vote self bot_id user_id = Return (PyBool false)
     ∨ get_user_vote self bot_id user_id = Return PyNone).
Proof.
  intros Hdata Hno. rewrite (get_user_vote_answers _ _ _ _ Hdata). split.
  - intros d ->. rewrite (raise_if_not_found_dict _ Hno).
    assert (∀ v, d !! "result" = Some v →
                 vote_result (PyDict d) = PyInt <$> int v) as Hresult.
    { intros v Hv. unfold vote_result. simpl. rewrite Hv.
      by rewrite bool_decide_true by eauto. }
    repeat split.
    + done.
    + intros v z Hv Hz. simpl. by rewrite (Hresult v Hv), Hz.
    + intros Hr Hv. simpl. unfold vote_result. simpl. rewrite Hr.
      rewrite bool_decide_false by (by intros [? [=]]). simpl.
      by rewrite bool_decide_true.
    + intros Hr Hv. simpl. unfold vote_result. simpl. rewrite Hr, Hv.
      by rewrite bool_decide_false by (by intros [? [=]]).
  - intros Hnd.
    destruct (raise_if_not_found_other data Hnd) as [-> | ->]; [|by left].
    simpl. unfold vote_result.
    destruct data as [| | | |s|l|d]; simpl; auto; [| |by destruct (Hnd d)].
    + destruct (bool_decide (is_Some (index 0 "result" s))); simpl; auto.
      destruct (bool_decide (is_Some (index 0 "vote" s))); simpl; auto.
    + destruct (existsb (λ x, eq_str x "result") l); simpl; auto.
      destruct (existsb (λ x, eq_str x "vote") l); simpl; auto.
Qed.

Lemma vote_interpretation_witness :
  get_user_vote (client_answering (PyDict vote_body)) 1 141691961
  = Return (PyInt 5).
Proof.
  assert (¬ has_sentinel (PyDict vote_body)) as Hno.
  { intros (d & [= <-] & Hmsg). vm_compute in Hmsg. discriminate Hmsg. }
  apply (proj1 (proj2 (proj1 (vote_interpretation
                                (client_answering (PyDict vote_body))
                                1 141691961 (PyDict vote_body) eq_refl Hno)
                         vote_body eq_refl))
           (PyStr "5") 5);
    vm_compute; reflexivity.
Defined.

(** C5.  When the ["result"] of the decoded body is falsy (an empty list
    and [None] among others), [search] and [category_search] return
    [None]; when it is a non-empty list they map its elements in order and
    return the bots in that order.  They never return an empty list. *)
Theorem empty_result_is_None {R : Repr} (self : Client) (data : pyval) :
  (∀ query,
     answers self "/search.php" [("q", PyStr query)] data →
     (∀ found, getitem data "result" = Return found → truthy found = false →
               search self query = Return None)
     ∧ (∀ infos, getitem data "result" = Return (PyList infos) → infos ≠ [] →
          search self query = Some <$> mapM (Bot_with_photo_url self) infos
          ∧ ∀ bots,
              Forall2 (λ info bot, Bot_with_photo_url self info = Return bot)
                infos bots →
              search self query = Return (Some bots))
     ∧ search self query ≠ Return (Some []))
  ∧ (∀ category,
     answers self "/getCategory.php"
       [("category", PyStr (category_param category))] data →
     (∀ found, getitem data "result" = Return found → truthy found = false →
               category_search self category = Return None)
     ∧ (∀ infos, getitem data "result" = Return (PyList infos) → infos ≠ [] →
          category_search self category
          = Some <$> mapM Bot_without_photo_url infos
          ∧ ∀ bots,
              Forall2 (λ info bot, Bot_without_photo_url info = Return bot)
                infos bots →
              category_search self category = Return (Some bots))
     ∧ category_search self category ≠ Return (Some []))
  ∧ truthy (PyList []) = false ∧ truthy PyNone = false.
Proof.
  assert (∀ make infos,
            getitem data "result" = Return (PyList infos) → infos ≠ [] →
            result_list make data = Some <$> mapM make infos
            ∧ ∀ bots,
                Forall2 (λ info bot, make info = Return bot) infos bots →
                result_list make data = Return (Some bots)) as Hlist.
  { intros make infos Hget Hne.
    rewrite (result_list_nonempty make data infos Hget Hne).
    split; [done|]. intros bots Hall%mapM_Return. by rewrite Hall. }
  split; [|split; [|done]].
  - intros query Hdata. rewrite (search_answers _ _ _ Hdata).
    split; [apply result_list_falsy|]. split; [apply Hlist|].
    apply result_list_never_empty, Bot_with_photo_url_str.
  - intros category Hdata. rewrite (category_search_answers _ _ _ Hdata).
    split; [apply result_list_falsy|]. split; [apply Hlist|].
    apply result_list_never_empty, Bot_without_photo_url_str.
Qed.

Lemma empty_result_is_None_witness :
  search (R := plain_repr) (client_answering (result_body (PyList []))) "vote"
  = Return None
  ∧ category_search (client_answering (result_body PyNone)) (Member enums.MUSIC)
    = Return None
  ∧ search (R := plain_repr)
      (client_answering (result_body (PyList [PyDict vote_bot]))) "vote"
    = Return (Some [vote_Bot]).
Proof.
  split; [|split].
  - apply (proj1 (proj1 (empty_result_is_None (R := plain_repr)
                           (client_answering (result_body (PyList [])))
                           (result_body (PyList []))) "vote" eq_refl)
             (PyList [])); reflexivity.
  - apply (proj1 (proj1 (proj2 (empty_result_is_None (R := plain_repr)
                                  (client_answering (result_body PyNone))
                                  (result_body PyNone)))
                    (Member enums.MUSIC) eq_refl)
             PyNone); reflexivity.
  - apply (proj2 (proj1 (proj2 (proj1 (empty_result_is_None (R := plain_repr)
                     (client_answering (result_body (PyList [PyDict vote_bot])))
                     (result_body (PyList [PyDict vote_bot]))) "vote" eq_refl))
                    [PyDict vote_bot] eq_refl ltac:(discriminate))
             [vote_Bot]).
    repeat constructor.
Defined.

(** C6.  Every bot returned by [category_search] has [photo_url] [None],
    whatever the [photo] of the response object. *)
Theorem category_search_omits_photo_url (self : Client)
    (category : category_arg) (bots : list Bot) :
  category_search self category = Return (Some bots) →
  ∀ bot, bot ∈ bots → photo_url bot = None.
Proof.
  unfold category_search. intros (data & Hdata & Hbots)%bind_Return.
  apply (result_list_Some _ Bot_without_photo_url_str) in Hbots
    as (infos & _ & _ & Hall).
  intros bot [i Hi]%list_elem_of_lookup.
  destruct (Forall2_lookup_r _ _ _ i bot Hall Hi) as (info & _ & Hbot).
  by apply Bot_without_photo_url_Return in Hbot as (d & _ & _ & Hurl).
Qed.

Lemma category_search_omits_photo_url_witness :
  truthy (photo (with_photo_url vote_Bot None)) = true
  ∧ photo_url (with_photo_url vote_Bot None) = None.
Proof.
  split; [reflexivity|].
  apply (category_search_omits_photo_url
           (client_answering (result_body (PyList [PyDict vote_bot])))
           (Member enums.POLL) [with_photo_url vote_Bot None]).
  - vm_compute. reflexivity.
  - apply list_elem_of_here.
Defined.

(** C7.  [offline] is [bool(int(...))] of the response value, so the
    string ["0"] gives [False]; [groups] and [inline] are [bool(...)] of
    theirs with no integer step, so the string ["0"] would give [True].
    With [offline] ["0"], [groups] [0] and [inline] [1] the bot has
    [offline] [False], [groups] [False] and [inline] [True]. *)
Theorem boolean_coercions {R : Repr} (self : Client) (username : string)
    (data : pyval) (bot : Bot) :
  answers self "/getBotID.php" [("username", PyStr username)] data →
  get_bot_id self username = Return bot →
  ∃ d, getitem data "result" = Return (PyDict d)
    ∧ (∃ v z, d !! "offline" = Some v ∧ int v = Return z
              ∧ offline bot = negb (z =? 0))
    ∧ (∃ v, d !! "groups" = Some v ∧ groups bot = truthy v)
    ∧ (∃ v, d !! "inline" = Some v ∧ inline bot = truthy v)
    ∧ (d !! "offline" = Some (PyStr "0") → offline bot = false)
    ∧ (d !! "groups" = Some (PyStr "0") → groups bot = true)
    ∧ (d !! "inline" = Some (PyStr "0") → inline bot = true)
    ∧ (d !! "offline" = Some (PyStr "0") → d !! "groups" = Some (PyInt 0) →
       d !! "inline" = Some (PyInt 1) →
       offline bot = false ∧ groups bot = false ∧ inline bot = true).
Proof.
  intros Hdata Hbot.
  destruct (get_bot_id_Return self data username bot Hdata Hbot)
    as (_ & d & Hget & Hmake).
  apply Bot_with_photo_url_Return in Hmake as (d' & [= <-] & Hf & _).
  destruct Hf as [_ _ _ _ _ _ _ (vg & Hg & Hgroups) (vi & Hi & Hinline) _
                  _ _ _ _ _ (vo & z & Ho & Hz & Hoffline) _].
  assert (d !! "offline" = Some (PyStr "0") → offline bot = false) as Hoff.
  { intros Ho'. rewrite Ho' in Ho. injection Ho as <-.
    vm_compute in Hz. injection Hz as <-. by rewrite Hoffline. }
  assert (∀ v, d !! "groups" = Some v → groups bot = truthy v) as Hgr.
  { intros v Hv. rewrite Hv in Hg. injection Hg as <-. done. }
  assert (∀ v, d !! "inline" = Some v → inline bot = truthy v) as Hin.
  { intros v Hv. rewrite Hv in Hi. injection Hi as <-. done. }
  exists d. split; [done|]. split; [by eauto|]. split; [by eauto|].
  split; [by eauto|]. split; [done|].
  split; [intros Hv; by rewrite (Hgr _ Hv)|].
  split; [intros Hv; by rewrite (Hin _ Hv)|].
  intros Ho' Hg' Hi'. by rewrite (Hoff Ho'), (Hgr _ Hg'), (Hin _ Hi').
Qed.

Lemma boolean_coercions_witness :
  offline vote_Bot = false ∧ groups vote_Bot = false ∧ inline vote_Bot = true.
Proof.
  destruct (boolean_coercions (R := plain_repr)
              (client_answering (result_body (PyDict vote_bot))) "vote"
              (result_body (PyDict vote_bot)) vote_Bot eq_refl)
    as (d & Hget & _ & _ & _ & _ & _ & _ & Hscenario).
  - vm_compute. reflexivity.
  - injection Hget as <-. apply Hscenario; vm_compute; reflexivity.
Defined.

(** C8.  [category_search] sends the code of a [Category] member and a
    string as it is, as the value of the ["category"] parameter of its
    request; a member and the string equal to its code give the same
    parameter, hence the same request and the same outcome. *)
Theorem category_param_same (self : Client) (c : enums.Category)
    (s t : string) :
  s = enums.value c →
  category_param (Member c) = enums.value c
  ∧ category_param (Text t) = t
  ∧ (∀ category,
       category_search self category
       = http_get self (api_base_url self +:+ "/getCategory.php")
           [("category", PyStr (category_param category))]
         ≫= result_list Bot_without_photo_url)
  ∧ [("category", PyStr (category_param (Member c)))]
    = [("category", PyStr (category_param (Text s)))]
  ∧ category_search self (Member c) = category_search self (Text s).
Proof.
  intros ->. split; [done|]. split; [done|]. split; [|done].
  intros category. unfold category_search.
  by destruct (http_get self _ _).
Qed.

Lemma category_param_same_witness :
  category_search client_reporting (Member enums.TELEGRAM)
  = Raise (KeyError "Telegram")
  ∧ category_search client_reporting (Text "Telegram")
    = Raise (KeyError "Telegram").
Proof.
  destruct (category_param_same client_reporting enums.TELEGRAM
              "Telegram" "" eq_refl) as (_ & _ & Hsent & _ & Hsame).
  rewrite <-Hsame, (Hsent (Member enums.TELEGRAM)). by split.
Defined.

(** C4, as stated, fails: with the tags ["##a"] the bot has the tag ["a"],
    where stripping exactly one ['#'] would leave ["#a"]. *)
Lemma tags_strip_one_hash_counterexample :
  tags <$> get_bot_id (R := plain_repr)
             (client_answering
                (result_body (PyDict (<["tags" := PyStr "##a"]> vote_bot))))
             "vote"
  = Return ["a"]
  ∧ strip_one_hash <$> split "##a" = ["#a"].
Proof. split; vm_compute; reflexivity. Qed.

(** C4, amended.  The tags of a mapped bot are the whitespace-delimited
    tokens of the raw string, in order and without deduplication, each
    without all of its leading ['#'] characters; no tag begins with ['#'],
    and ["#a #b #c"] gives ["a"; "b"; "c"]. *)
Theorem tags_strip_all_hashes {R : Repr} (self : Client) (info : pyval)
    (bot : Bot) :
  mapped_from self info bot →
  ∃ d s words,
    info = PyDict d ∧ d !! "tags" = Some (PyStr s)
    ∧ tokens s words
    ∧ (∀ words', tokens s words' → words' = words)
    ∧ Forall2 strips_hashes words (tags bot)
    ∧ (∀ tags', Forall2 strips_hashes words tags' → tags' = tags bot)
    ∧ Forall (λ tag, starts_with is_hash tag = false) (tags bot)
    ∧ (s = "#a #b #c" → tags bot = ["a"; "b"; "c"]).
Proof.
  intros Hbot.
  assert (∃ d, info = PyDict d ∧ fields_of d bot) as (d & -> & Hf).
  { destruct Hbot as [(d & -> & Hf & _)%Bot_with_photo_url_Return
                     |(d & -> & Hf & _)%Bot_without_photo_url_Return];
      eauto. }
  destruct Hf as [_ _ _ _ _ _ _ _ _ _ _ _ _ (s & Hs & Htags) _ _ _].
  exists d, s, (split s). rewrite Htags.
  split; [done|]. split; [done|]. split; [apply split_tokens|].
  split; [intros words' Hwords'; by apply split_spec|].
  split; [|split; [|split]].
  - apply Forall2_fmap_r, Forall_Forall2_diag, Forall_forall.
    intros word _. apply lstrip_strips_hashes.
  - intros tags' Htags'. apply list_eq_Forall2.
    apply Forall2_fmap_r. eapply Forall2_flip, Forall2_impl; [exact Htags'|].
    intros word tag. apply strips_hashes_lstrip.
  - apply Forall_fmap, Forall_forall. intros word _. apply lstrip_no_hash.
  - by intros ->.
Qed.

Lemma tags_strip_all_hashes_witness :
  ∃ d s words,
    PyDict vote_bot = PyDict d ∧ d !! "tags" = Some (PyStr s)
    ∧ tokens s words
    ∧ (∀ words', tokens s words' → words' = words)
    ∧ Forall2 strips_hashes words ["vote"; "poll"; "like"]
    ∧ (∀ tags', Forall2 strips_hashes words tags' →
                tags' = ["vote"; "poll"; "like"])
    ∧ Forall (λ tag, starts_with is_hash tag = false) ["vote"; "poll"; "like"]
    ∧ (s = "#a #b #c" → ["vote"; "poll"; "like"] = ["a"; "b"; "c"]).
Proof.
  apply (tags_strip_all_hashes (R := plain_repr) (client_answering PyNone)
           (PyDict vote_bot) vote_Bot).
  left. vm_compute. reflexivity.
Defined.

(** C9, as stated, fails: a response whose [name] is the integer [5],
    where [Bot] declares a string, is mapped to a bot with that [name]; no
    exception is raised. *)
Lemma mapping_error_counterexample :
  name <$> get_bot_id (R := plain_repr)
             (client_answering
                (result_body (PyDict (<["name" := PyInt 5]> vote_bot))))
             "vote"
  = Return (PyInt 5).
Proof. vm_compute. reflexivity. Qed.

(** C9, amended.  A constructor call on a response object returns a bot
    exactly when the seventeen keys it reads ([warn] among them) are
    present, [tags] and [languages] are strings, and [int] accepts
    [developer_id] and [offline]; the other fields are passed on as they
    are, whatever their shape, and none is given a default.  Otherwise it
    raises [KeyError] for an absent key, [AttributeError] for [tags] or
    [languages] that is not a string, or the exception of [int]. *)
Theorem mapping_failures {R : Repr} (self : Client)
    (make : pyval → outcome Bot) (d : gmap string pyval) :
  make = Bot_with_photo_url self ∨ make = Bot_without_photo_url →
  ((∃ bot, make (PyDict d) = Return bot) ↔ mappable d)
  ∧ (∀ bot, make (PyDict d) = Return bot → fields_of d bot)
  ∧ (∀ e, make (PyDict d) = Raise e → mapping_failure d e)
  ∧ (∀ k, k ∈ bot_keys → d !! k = None →
          ∃ e, make (PyDict d) = Raise e ∧ mapping_failure d e).
Proof.
  intros Hmake.
  assert (((∃ bot, make (PyDict d) = Return bot) ↔ mappable d)
          ∧ (∀ bot, make (PyDict d) = Return bot → fields_of d bot)
          ∧ (∀ e, make (PyDict d) = Raise e → mapping_failure d e))
    as (Hiff & Hfields & Hfail).
  { destruct Hmake as [-> | ->].
    - split; [apply mappable_with_photo_url|]. split.
      + by intros bot (d' & [= <-] & Hf & _)%Bot_with_photo_url_Return.
      + intros e He%Bot_with_photo_url_Raise.
        by apply Bot_without_photo_url_Raise.
    - split; [apply mappable_Return|]. split.
      + by intros bot (d' & [= <-] & Hf & _)%Bot_without_photo_url_Return.
      + apply Bot_without_photo_url_Raise. }
  split; [exact Hiff|]. split; [exact Hfields|]. split; [exact Hfail|].
  intros k Hk Hnone.
  destruct (not_Return_Raise (make (PyDict d))) as [e He]; [|by eauto].
  intros bot Hbot.
  assert (mappable d) as [Hkeys _] by (apply Hiff; eauto).
  destruct (Hkeys k Hk) as [x Hx]. congruence.
Qed.

Lemma mapping_failures_witness :
  ∃ e, Bot_without_photo_url (PyDict (delete "warn" vote_bot)) = Raise e
       ∧ mapping_failure (delete "warn" vote_bot) e.
Proof.
  apply (proj2 (proj2 (proj2 (mapping_failures (R := plain_repr)
                                (client_answering PyNone)
                                Bot_without_photo_url
                                (delete "warn" vote_bot)
                                (or_intror eq_refl))))
           "warn").
  - apply list_elem_of_In. vm_compute. tauto.
  - vm_compute. reflexivity.
Defined.

(** C10, as stated, fails: the JSON number [1.5] is neither an integer
    nor a string of digits, and [int] truncates it to [1], so the bot is
    returned with [offline] [True]. *)
Lemma offline_conversion_counterexample :
  ¬ integer_or_signed_digits (PyFloat (S754_finite false 3 (-1)))
  ∧ offline <$> get_bot_id (R := plain_repr)
                  (client_answering
                     (result_body
                        (PyDict
                           (<["offline" := PyFloat (S754_finite false 3 (-1))]>
                              vote_bot))))
                  "vote"
    = Return true.
Proof. split; [intros []|vm_compute; reflexivity]. Qed.

(** C10, amended.  [int] converts the [offline] value exactly when it is
    an integer, a boolean, a finite float, or a string holding whitespace,
    an optional sign, at most 4300 digits with single underscores between
    them, and whitespace; integers and plain signed strings of at most
    4300 digits are among these, the strings ["true"], [""] and ["0.5"]
    and the strings of more digits are not.  A float is cut toward zero.
    A bot is mapped only when the conversion succeeds; for every other
    value each of [get_bot_id], [search] and [category_search] raises, and
    the exception is the [TypeError], [ValueError] or [OverflowError] of
    [int] when the other fields are in order. *)
Theorem offline_conversion {R : Repr} (self : Client)
    (d : gmap string pyval) (v : pyval) :
  d !! "offline" = Some v →
  ((∃ z, int v = Return z) ↔ int_accepts v)
  ∧ ((∃ z, v = PyInt z) ∨ (∃ s, v = PyStr s ∧ short_signed_digits s) →
     int_accepts v)
  ∧ (∀ s m e, v = PyFloat (S754_finite s m e) →
              int v = Return (if s then - truncated_magnitude m e
                              else truncated_magnitude m e))
  ∧ (∀ bot, mapped_from self (PyDict d) bot →
            ∃ z, int v = Return z ∧ offline bot = negb (z =? 0))
  ∧ (∀ e, int v = Raise e →
          conversion_error e
          ∧ (mappable (<["offline" := PyInt 0]> d) →
             Bot_with_photo_url self (PyDict d) = Raise e
             ∧ Bot_without_photo_url (PyDict d) = Raise e))
  ∧ (¬ int_accepts v →
     (∀ username data,
        answers self "/getBotID.php" [("username", PyStr username)] data →
        getitem data "result" = Return (PyDict d) →
        ∃ e, get_bot_id self username = Raise e)
     ∧ (∀ query data infos,
        answers self "/search.php" [("q", PyStr query)] data →
        getitem data "result" = Return (PyList infos) → PyDict d ∈ infos →
        ∃ e, search self query = Raise e)
     ∧ (∀ category data infos,
        answers self "/getCategory.php"
          [("category", PyStr (category_param category))] data →
        getitem data "result" = Return (PyList infos) → PyDict d ∈ infos →
        ∃ e, category_search self category = Raise e))
  ∧ ¬ int_accepts (PyStr "true") ∧ ¬ int_accepts (PyStr "")
  ∧ ¬ int_accepts (PyStr "0.5")
  ∧ (∀ digits, all_chars is_digit digits →
               max_str_digits < Z.of_nat (String.length digits) →
               ¬ int_accepts (PyStr digits)).
Proof.
  intros Hv.
  split; [apply int_Return|].
  split; [intros [[z ->]|(s & -> & Hs)];
          [done|by apply short_signed_digits_literal]|].
  split; [intros s m e ->; apply int_of_float_truncates|].
  split; [by apply mapped_offline|].
  split; [intros e He; split;
          [by apply (int_Raise v)|by apply (offline_error self d v)]|].
  split; [|split; [|split; [|split]];
           try (by apply (not_literal _ ValueError));
           intros digits Hdigits Hlong;
           by apply (not_literal _ ValueError), long_digits_refused].
  intros Hno.
  destruct (offline_rejected self d v Hv Hno) as [[e1 He1] [e2 He2]].
  assert (∀ make e data infos,
            make (PyDict d) = Raise e →
            getitem data "result" = Return (PyList infos) →
            PyDict d ∈ infos →
            ∃ e', result_list make data = Raise e') as Hlist.
  { intros make e data infos He Hget Hin.
    rewrite (result_list_nonempty make data infos Hget)
      by (intros ->; by apply elem_of_nil in Hin).
    destruct (mapM_elem_Raise make infos _ e Hin He) as [e' ->]. by exists e'. }
  split; [|split].
  - intros username data Hdata Hget. apply not_Return_Raise. intros bot Hbot.
    destruct (get_bot_id_Return self data username bot Hdata Hbot)
      as (_ & d' & Hget' & Hmake).
    rewrite Hget in Hget'. injection Hget' as <-. congruence.
  - intros query data infos Hdata. rewrite (search_answers _ _ _ Hdata).
    by apply Hlist with e1.
  - intros category data infos Hdata.
    rewrite (category_search_answers _ _ _ Hdata). by apply Hlist with e2.
Qed.

Lemma offline_conversion_witness :
  ∃ e, category_search (client_answering half_offline_body)
         (Member enums.POLL)
       = Raise e.
Proof.
  destruct (offline_conversion (R := plain_repr)
              (client_answering half_offline_body)
              half_offline_bot (PyStr "0.5"))
    as (_ & _ & _ & _ & _ & Hraise & _).
  - vm_compute. reflexivity.
  - destruct Hraise as (_ & _ & Hcategory).
    + apply (not_literal "0.5" ValueError). vm_compute. reflexivity.
    + apply (Hcategory (Member enums.POLL) half_offline_body
               [PyDict vote_bot; PyDict half_offline_bot]).
      * reflexivity.
      * reflexivity.
      * apply list_elem_of_further, list_elem_of_here.
Defined.

(** ** Further properties of the client *)

(** *** The transport *)

(** X1.  The outcome of each method depends on the transport only
    through the answer to the request for the method's endpoint with the
    method's parameters: an exception the transport raises for that
    request is the method's outcome, unchanged, and two clients with the
    same URLs whose transports answer that request alike give the same
    outcome, whatever they answer to any other request.  The transport is
    a function of the request, so the statement does not count how often
    the request is sent. *)
Theorem request_determines_outcome {R : Repr} (self : Client) :
  (∀ username e,
     http_get self (api_base_url self +:+ "/getBotID.php")
       (get_bot_id_params username) = Raise e →
     get_bot_id self username = Raise e)
  ∧ (∀ bot_id user_id e,
     http_get self (api_base_url self +:+ "/getUserVote.php")
       (get_user_vote_params bot_id user_id) = Raise e →
     get_user_vote self bot_id user_id = Raise e)
  ∧ (∀ query e,
     http_get self (api_base_url self +:+ "/search.php")
       (search_params query) = Raise e →
     search self query = Raise e)
  ∧ (∀ category e,
     http_get self (api_base_url self +:+ "/getCategory.php")
       (category_search_params category) = Raise e →
     category_search self category = Raise e)
  ∧ (∀ self',
     api_base_url self = api_base_url self' →
     photo_base_url self = photo_base_url self' →
     (∀ username,
        http_get self (api_base_url self +:+ "/getBotID.php")
          (get_bot_id_params username)
        = http_get self' (api_base_url self' +:+ "/getBotID.php")
            (get_bot_id_params username) →
        get_bot_id self username = get_bot_id self' username)
     ∧ (∀ bot_id user_id,
        http_get self (api_base_url self +:+ "/getUserVote.php")
          (get_user_vote_params bot_id user_id)
        = http_get self' (api_base_url self' +:+ "/getUserVote.php")
            (get_user_vote_params bot_id user_id) →
        get_user_vote self bot_id user_id = get_user_vote self' bot_id user_id)
     ∧ (∀ query,
        http_get self (api_base_url self +:+ "/search.php")
          (search_params query)
        = http_get self' (api_base_url self' +:+ "/search.php")
            (search_params query) →
        search self query = search self' query)
     ∧ (∀ category,
        http_get self (api_base_url self +:+ "/getCategory.php")
          (category_search_params category)
        = http_get self' (api_base_url self' +:+ "/getCategory.php")
            (category_search_params category) →
        category_search self category = category_search self' category)).
Proof.
  split; [|split; [|split; [|split]]].
  - intros username e He. unfold get_bot_id. fold (get_bot_id_params username).
    by rewrite He.
  - intros bot_id user_id e He. unfold get_user_vote.
    fold (get_user_vote_params bot_id user_id). by rewrite He.
  - intros query e He. unfold search. fold (search_params query).
    by rewrite He.
  - intros category e He. unfold category_search.
    fold (category_search_params category). by rewrite He.
  - intros self' Hapi Hphoto.
    assert (Bot_with_photo_url self = Bot_with_photo_url self') as Hmake.
    { unfold Bot_with_photo_url. by rewrite Hphoto. }
    split; [|split; [|split]].
    + intros username Hget. rewrite <-Hapi in Hget. unfold get_bot_id.
      fold (get_bot_id_params username). by rewrite <-Hapi, Hget, Hmake.
    + intros bot_id user_id Hget. rewrite <-Hapi in Hget. unfold get_user_vote.
      fold (get_user_vote_params bot_id user_id). by rewrite <-Hapi, Hget.
    + intros query Hget. rewrite <-Hapi in Hget. unfold search. fold (search_params query).
      by rewrite <-Hapi, Hget, Hmake.
    + intros category Hget. rewrite <-Hapi in Hget. unfold category_search.
      fold (category_search_params category). by rewrite <-Hapi, Hget.
Qed.

Lemma request_determines_outcome_witness :
  search (R := plain_repr)
    {| api_base_url := API_BASE_URL; photo_base_url := PHOTO_BASE_URL;
       http_get := λ _ _, Raise HTTPError |} "vote"
  = Raise HTTPError.
Proof.
  apply (proj1 (proj2 (proj2 (request_determines_outcome (R := plain_repr)
           {| api_base_url := API_BASE_URL; photo_base_url := PHOTO_BASE_URL;
              http_get := λ _ _, Raise HTTPError |})))).
  reflexivity.
Defined.

(** *** Bodies of an unexpected shape *)

Lemma result_list_builtin (make : pyval → outcome Bot) (data : pyval) (e : exn) :
  (∀ info e', make info = Raise e' → builtin_error e') →
  result_list make data = Raise e → builtin_error e.
Proof.
  intros Hmake. unfold result_list.
  intros [H|(found & _ & H)]%bind_Raise; [by apply getitem_builtin in H|].
  destruct (negb (truthy found)); [done|].
  apply bind_Raise in H as [H|(infos & _ & H)].
  - apply bind_Raise in H as [H|(found' & _ & H)];
      [by apply getitem_builtin in H|].
    by destruct found'; simplify_eq/=.
  - apply fmap_Raise in H. rewrite for_append_mapM in H.
    apply fmap_Raise, mapM_Raise in H
      as (seen & bots & info & rest & _ & _ & Hraise).
    by apply Hmake in Hraise.
Qed.

Lemma Bot_with_photo_url_builtin {R : Repr} (self : Client) (info : pyval)
    (e : exn) :
  Bot_with_photo_url self info = Raise e → builtin_error e.
Proof.
  intros H. apply (proj1 (Bot_with_photo_url_Raise self info e)) in H.
  by apply (Bot_without_photo_url_builtin info e).
Qed.

(** A truthy ["result"] that is not a list cannot be listed. *)
Lemma result_list_not_list (make : pyval → outcome Bot) (data found : pyval) :
  (∀ s, make (PyStr s) = Raise TypeError) →
  getitem data "result" = Return found → truthy found = true →
  (∀ infos, found ≠ PyList infos) →
  result_list make data = Raise TypeError.
Proof.
  intros Hstr Hget Htrue Hlist. unfold result_list. rewrite Hget; simpl.
  rewrite Htrue; simpl.
  destruct found as [| | | |s|infos|d]; try done.
  - destruct s as [|c s]; [done|]. simpl. by rewrite Hstr.
  - by destruct (Hlist infos).
  - simpl in Htrue |- *.
    destruct (map_to_list d) as [|[k v] kvs] eqn:Hkeys.
    + apply map_to_list_empty_iff in Hkeys as ->.
      by rewrite map_size_empty in Htrue.
    + simpl. by rewrite Hstr.
Qed.

(** X2.  A body that is not a JSON object makes [get_bot_id], [search]
    and [category_search] raise [TypeError]; [get_user_vote] raises
    [TypeError] or returns [False] or [None], never an integer. *)
Theorem body_not_an_object {R : Repr} (self : Client) (data : pyval) :
  (∀ d, data ≠ PyDict d) →
  (∀ username,
     answers self "/getBotID.php" (get_bot_id_params username) data →
     get_bot_id self username = Raise TypeError)
  ∧ (∀ query,
     answers self "/search.php" (search_params query) data →
     search self query = Raise TypeError)
  ∧ (∀ category,
     answers self "/getCategory.php" (category_search_params category) data →
     category_search self category = Raise TypeError)
  ∧ (∀ bot_id user_id,
     answers self "/getUserVote.php"
       (get_user_vote_params bot_id user_id) data →
     get_user_vote self bot_id user_id = Raise TypeError
     ∨ get_user_vote self bot_id user_id = Return (PyBool false)
     ∨ get_user_vote self bot_id user_id = Return PyNone).
Proof.
  intros Hnd.
  assert (getitem data "result" = Raise TypeError) as Hget.
  { destruct data as [| | | | | |d]; try done. by destruct (Hnd d). }
  split; [|split; [|split]].
  - intros username Hdata. rewrite (get_bot_id_answers _ _ _ Hdata).
    destruct (raise_if_not_found_other data Hnd) as [-> | ->]; [|done].
    simpl. by rewrite Hget.
  - intros query Hdata. rewrite (search_answers _ _ _ Hdata).
    unfold result_list. by rewrite Hget.
  - intros category Hdata. rewrite (category_search_answers _ _ _ Hdata).
    unfold result_list. by rewrite Hget.
  - intros bot_id user_id Hdata.
    rewrite (get_user_vote_answers _ _ _ _ Hdata).
    destruct (raise_if_not_found_other data Hnd) as [-> | ->]; [|by left].
    simpl. unfold vote_result.
    destruct data as [| | | |s|l|d]; simpl; auto; [| |by destruct (Hnd d)].
    + destruct (bool_decide (is_Some (index 0 "result" s))); simpl; auto.
      destruct (bool_decide (is_Some (index 0 "vote" s))); simpl; auto.
    + destruct (existsb (λ x, eq_str x "result") l); simpl; auto.
      destruct (existsb (λ x, eq_str x "vote") l); simpl; auto.
Qed.

Lemma body_not_an_object_witness :
  search (R := plain_repr) (client_answering (PyList [PyDict vote_bot])) "vote"
  = Raise TypeError.
Proof.
  apply (proj1 (proj2 (body_not_an_object (R := plain_repr)
                         (client_answering (PyList [PyDict vote_bot]))
                         (PyList [PyDict vote_bot]) ltac:(done)))).
  reflexivity.
Defined.

(** X3.  An object without the key ["result"] makes [search] and
    [category_search] raise [KeyError], also when it holds the "bot not
    found" message, which these two methods do not look at; [get_bot_id]
    raises [KeyError] unless the object is the sentinel. *)
Theorem result_key_missing {R : Repr} (self : Client) (d : gmap string pyval) :
  d !! "result" = None →
  (∀ username,
     answers self "/getBotID.php" (get_bot_id_params username) (PyDict d) →
     ¬ has_sentinel (PyDict d) →
     get_bot_id self username = Raise (KeyError "result"))
  ∧ (∀ query,
     answers self "/search.php" (search_params query) (PyDict d) →
     search self query = Raise (KeyError "result"))
  ∧ (∀ category,
     answers self "/getCategory.php" (category_search_params category)
       (PyDict d) →
     category_search self category = Raise (KeyError "result")).
Proof.
  intros Hnone.
  assert (getitem (PyDict d) "result" = Raise (KeyError "result")) as Hget
    by (simpl; by rewrite Hnone).
  split; [|split].
  - intros username Hdata Hno. rewrite (get_bot_id_answers _ _ _ Hdata).
    rewrite (raise_if_not_found_dict _ Hno). simpl getitem at 1.
    by rewrite Hnone.
  - intros query Hdata. rewrite (search_answers _ _ _ Hdata).
    unfold result_list. by rewrite Hget.
  - intros category Hdata. rewrite (category_search_answers _ _ _ Hdata).
    unfold result_list. by rewrite Hget.
Qed.

Lemma result_key_missing_witness :
  search (R := plain_repr) (client_answering (PyDict only_message)) "vote"
  = Raise (KeyError "result").
Proof.
  assert (only_message !! "result" = None) as Hnone
    by (vm_compute; reflexivity).
  apply (proj1 (proj2 (result_key_missing (R := plain_repr)
                         (client_answering (PyDict only_message))
                         only_message Hnone))).
  reflexivity.
Defined.

(** X4.  A ["result"] that is truthy and not a list (a number, [true], a
    non-empty string or object) makes [search] and [category_search]
    raise [TypeError]. *)
Theorem result_not_a_list {R : Repr} (self : Client) (data found : pyval) :
  getitem data "result" = Return found → truthy found = true →
  (∀ infos, found ≠ PyList infos) →
  (∀ query,
     answers self "/search.php" (search_params query) data →
     search self query = Raise TypeError)
  ∧ (∀ category,
     answers self "/getCategory.php" (category_search_params category) data →
     category_search self category = Raise TypeError).
Proof.
  intros Hget Htrue Hlist. split.
  - intros query Hdata. rewrite (search_answers _ _ _ Hdata).
    by apply (result_list_not_list _ data found).
  - intros category Hdata. rewrite (category_search_answers _ _ _ Hdata).
    by apply (result_list_not_list _ data found).
Qed.

Lemma result_not_a_list_witness :
  category_search (client_answering (result_body (PyDict vote_bot)))
    (Member enums.POLL)
  = Raise TypeError.
Proof.
  assert (truthy (PyDict vote_bot) = true) as Htrue
    by (vm_compute; reflexivity).
  apply (proj2 (result_not_a_list (R := plain_repr)
                  (client_answering (result_body (PyDict vote_bot)))
                  (result_body (PyDict vote_bot)) (PyDict vote_bot)
                  eq_refl Htrue ltac:(done))).
  reflexivity.
Defined.

(** *** What the methods raise and return *)

Lemma raise_if_not_found_Raise (data : pyval) (e : exn) :
  raise_if_not_found data = Raise e →
  e = TypeError
  ∨ (has_sentinel data ∧ e = BotNotFound (PyStr "bot not found")).
Proof.
  intros H.
  assert ((∀ d, data ≠ PyDict d) ∨ ∃ d, data = PyDict d) as [Hnd|[d ->]]
    by (destruct data; eauto; by left).
  - destruct (raise_if_not_found_other data Hnd) as [E|E];
      rewrite E in H; [done|]. injection H as <-. by left.
  - destruct (d !! "message") as [v|] eqn:Hmsg.
    + destruct (eq_str v "bot not found") eqn:Heq.
      * apply eq_str_true in Heq as ->.
        assert (has_sentinel (PyDict d)) as Hs by (by exists d).
        rewrite (raise_if_not_found_sentinel _ Hs) in H.
        injection H as <-. by right.
      * rewrite raise_if_not_found_dict in H; [done|].
        intros (d' & [= <-] & Hs). rewrite Hs in Hmsg.
        injection Hmsg as <-. by rewrite (proj2 (eq_str_true _ _)) in Heq.
    + rewrite raise_if_not_found_dict in H; [done|].
      intros (d' & [= <-] & Hs). congruence.
Qed.

(** X5.  An exception leaving a method is the one the transport raised,
    or [BotNotFound("bot not found")] from [get_bot_id] and
    [get_user_vote] on the sentinel body, or one of [KeyError],
    [TypeError], [ValueError], [AttributeError] and [OverflowError];
    [search] and [category_search] raise [BotNotFound] only if the
    transport does. *)
Theorem exceptions_raised {R : Repr} (self : Client) (e : exn) :
  (∀ username,
     get_bot_id self username = Raise e →
     http_get self (api_base_url self +:+ "/getBotID.php")
       (get_bot_id_params username) = Raise e
     ∨ (∃ data, answers self "/getBotID.php" (get_bot_id_params username) data
                ∧ has_sentinel data ∧ e = BotNotFound (PyStr "bot not found"))
     ∨ builtin_error e)
  ∧ (∀ bot_id user_id,
     get_user_vote self bot_id user_id = Raise e →
     http_get self (api_base_url self +:+ "/getUserVote.php")
       (get_user_vote_params bot_id user_id) = Raise e
     ∨ (∃ data, answers self "/getUserVote.php"
                  (get_user_vote_params bot_id user_id) data
                ∧ has_sentinel data ∧ e = BotNotFound (PyStr "bot not found"))
     ∨ builtin_error e)
  ∧ (∀ query,
     search self query = Raise e →
     http_get self (api_base_url self +:+ "/search.php")
       (search_params query) = Raise e
     ∨ builtin_error e)
  ∧ (∀ category,
     category_search self category = Raise e →
     http_get self (api_base_url self +:+ "/getCategory.php")
       (category_search_params category) = Raise e
     ∨ builtin_error e).
Proof.
  assert (∀ data, raise_if_not_found data = Raise e →
                  (has_sentinel data ∧ e = BotNotFound (PyStr "bot not found"))
                  ∨ builtin_error e) as Hcheck.
  { intros data [-> |[Hs ->]]%raise_if_not_found_Raise; [by right|by left]. }
  split; [|split; [|split]].
  - intros username. unfold get_bot_id. fold (get_bot_id_params username).
    intros [H|(data & Hdata & H)]%bind_Raise; [by left|]. right.
    apply bind_Raise in H as [H|([] & _ & H)].
    + destruct (Hcheck data H) as [[Hs ->]|Hb]; [left|by right].
      by exists data.
    + right. apply bind_Raise in H as [H|(info & _ & H)].
      * by apply getitem_builtin in H.
      * by apply Bot_with_photo_url_builtin in H.
  - intros bot_id user_id. unfold get_user_vote.
    fold (get_user_vote_params bot_id user_id).
    intros [H|(data & Hdata & H)]%bind_Raise; [by left|]. right.
    apply bind_Raise in H as [H|([] & _ & H)].
    + destruct (Hcheck data H) as [[Hs ->]|Hb]; [left|by right].
      by exists data.
    + right. by apply vote_result_builtin in H.
  - intros query. unfold search. fold (search_params query).
    intros [H|(data & Hdata & H)]%bind_Raise; [by left|]. right.
    apply (result_list_builtin (Bot_with_photo_url self) data); [|done].
    intros info e'. apply Bot_with_photo_url_builtin.
  - intros category. unfold category_search.
    fold (category_search_params category).
    intros [H|(data & Hdata & H)]%bind_Raise; [by left|]. right.
    apply (result_list_builtin Bot_without_photo_url data); [|done].
    intros info e'. apply Bot_without_photo_url_builtin.
Qed.

Lemma exceptions_raised_witness :
  http_get (client_answering (PyDict only_message))
    (api_base_url (client_answering (PyDict only_message)) +:+ "/search.php")
    (search_params "vote")
  = Raise (KeyError "result")
  ∨ builtin_error (KeyError "result").
Proof.
  apply (proj1 (proj2 (proj2 (exceptions_raised (R := plain_repr)
                                (client_answering (PyDict only_message))
                                (KeyError "result")))) "vote").
  vm_compute. reflexivity.
Defined.

(** X6.  Whatever the body, a value returned by [get_user_vote] is an
    integer, [False] or [None]; it is never [True], a float or a string. *)
Theorem vote_values (self : Client) (bot_id user_id : Z) (r : pyval) :
  get_user_vote self bot_id user_id = Return r → vote_value r.
Proof.
  unfold get_user_vote, vote_value.
  intros (data & _ & ([] & _ & H)%bind_Return)%bind_Return.
  unfold vote_result in H.
  apply bind_Return in H as (has_result & _ & H). destruct has_result.
  - apply fmap_Return in H as (z & _ & ->). eauto.
  - apply bind_Return in H as (has_vote & _ & H).
    destruct has_vote; injection H as <-; auto.
Qed.

Lemma vote_values_witness : vote_value (PyInt 5).
Proof.
  apply (vote_values (client_answering (PyDict vote_body)) 1 141691961).
  vm_compute. reflexivity.
Defined.

(** *** What the methods return *)

Lemma result_list_None (make : pyval → outcome Bot) (data : pyval) :
  result_list make data = Return None ↔
  ∃ found, getitem data "result" = Return found ∧ truthy found = false.
Proof.
  split.
  - unfold result_list. intros (found & Hget & H)%bind_Return.
    exists found. split; [done|].
    destruct (truthy found); [|done]. simpl in H.
    apply bind_Return in H as (infos & _ & H).
    by apply fmap_Return in H as (bots & _ & [=]).
  - intros (found & Hget & Hfalse). by apply (result_list_falsy _ data found).
Qed.

(** X7.  [search] and [category_search] return a list exactly when
    ["result"] is a non-empty list whose every element maps: the list has
    one bot per element, in the same position, none skipped; they return
    [None] exactly when ["result"] is falsy. *)
Theorem listing_exact {R : Repr} (self : Client) (data : pyval) :
  (∀ query,
     answers self "/search.php" (search_params query) data →
     (∀ bots,
        search self query = Return (Some bots) ↔
        ∃ infos, getitem data "result" = Return (PyList infos) ∧ infos ≠ []
                 ∧ Forall2 (λ info bot,
                              Bot_with_photo_url self info = Return bot)
                     infos bots
                 ∧ length bots = length infos)
     ∧ (search self query = Return None ↔
        ∃ found, getitem data "result" = Return found ∧ truthy found = false))
  ∧ (∀ category,
     answers self "/getCategory.php" (category_search_params category) data →
     (∀ bots,
        category_search self category = Return (Some bots) ↔
        ∃ infos, getitem data "result" = Return (PyList infos) ∧ infos ≠ []
                 ∧ Forall2 (λ info bot,
                              Bot_without_photo_url info = Return bot)
                     infos bots
                 ∧ length bots = length infos)
     ∧ (category_search self category = Return None ↔
        ∃ found, getitem data "result" = Return found ∧ truthy found = false)).
Proof.
  assert (∀ make, (∀ s, make (PyStr s) = Raise TypeError) → ∀ bots,
            result_list make data = Return (Some bots) ↔
            ∃ infos, getitem data "result" = Return (PyList infos) ∧ infos ≠ []
                     ∧ Forall2 (λ info bot, make info = Return bot) infos bots
                     ∧ length bots = length infos) as Hsome.
  { intros make Hstr bots. split.
    - intros (infos & Hget & Hne & Hall)%result_list_Some; [|done].
      exists infos. repeat split; try done.
      symmetry. by eapply Forall2_length.
    - intros (infos & Hget & Hne & Hall & _).
      rewrite (result_list_nonempty make data infos Hget Hne).
      apply mapM_Return in Hall. by rewrite Hall. }
  split.
  - intros query Hdata. unfold search_params in Hdata.
    rewrite (search_answers _ _ _ Hdata).
    split; [apply Hsome, Bot_with_photo_url_str|apply result_list_None].
  - intros category Hdata. unfold category_search_params in Hdata.
    rewrite (category_search_answers _ _ _ Hdata).
    split; [apply Hsome, Bot_without_photo_url_str|apply result_list_None].
Qed.

Lemma listing_exact_witness :
  ∃ infos,
    getitem (result_body (PyList [PyDict vote_bot; PyDict vote_bot])) "result"
    = Return (PyList infos) ∧ infos ≠ []
    ∧ Forall2 (λ info bot,
                 Bot_with_photo_url (R := plain_repr)
                   (client_answering
                      (result_body (PyList [PyDict vote_bot; PyDict vote_bot])))
                   info = Return bot)
        infos [vote_Bot; vote_Bot]
    ∧ length [vote_Bot; vote_Bot] = length infos.
Proof.
  apply (proj1 (proj1 (listing_exact (R := plain_repr)
                  (client_answering
                     (result_body (PyList [PyDict vote_bot; PyDict vote_bot])))
                  (result_body (PyList [PyDict vote_bot; PyDict vote_bot])))
                  "vote" eq_refl)
           [vote_Bot; vote_Bot]).
  vm_compute. reflexivity.
Defined.

(** X8.  [get_bot_id] returns a bot exactly when the check lets the body
    through and its ["result"] is an object from which every field
    follows: the eleven fields passed on unchanged, the coerced ones, and
    the derived [photo_url]. *)
Theorem get_bot_id_exact {R : Repr} (self : Client) (username : string)
    (data : pyval) (bot : Bot) :
  answers self "/getBotID.php" (get_bot_id_params username) data →
  get_bot_id self username = Return bot ↔
  raise_if_not_found data = Return tt
  ∧ ∃ d, getitem data "result" = Return (PyDict d)
         ∧ fields_of d bot
         ∧ photo_url bot = derived_photo_url self (id bot) (photo bot).
Proof.
  intros Hdata. unfold get_bot_id_params in Hdata. split.
  - intros Hbot.
    destruct (get_bot_id_Return self data username bot Hdata Hbot)
      as (Hcheck & d & Hget & Hmake).
    split; [done|]. exists d. split; [done|].
    by apply Bot_with_photo_url_Return in Hmake as (d' & [= <-] & Hf & Hurl).
  - intros (Hcheck & d & Hget & Hf & Hurl).
    rewrite (get_bot_id_answers _ _ _ Hdata), Hcheck, Hget. simpl.
    apply Bot_with_photo_url_Return. eauto.
Qed.

Lemma get_bot_id_exact_witness :
  raise_if_not_found (result_body (PyDict vote_bot)) = Return tt
  ∧ ∃ d, getitem (result_body (PyDict vote_bot)) "result" = Return (PyDict d)
         ∧ fields_of d vote_Bot
         ∧ photo_url vote_Bot
           = derived_photo_url (R := plain_repr)
               (client_answering (result_body (PyDict vote_bot)))
               (id vote_Bot) (photo vote_Bot).
Proof.
  apply (proj1 (get_bot_id_exact (R := plain_repr)
                  (client_answering (result_body (PyDict vote_bot)))
                  "vote" (result_body (PyDict vote_bot)) vote_Bot eq_refl)).
  vm_compute. reflexivity.
Defined.

(** *** [category_search] against [search] *)

Lemma erase_mapped (info : pyval) (bot : Bot) :
  Bot_without_photo_url info = Return bot → erase_photo_url bot = bot.
Proof.
  intros (d & _ & _ & Hurl)%Bot_without_photo_url_Return.
  destruct bot. simpl in Hurl. by subst.
Qed.

Lemma Bot_without_photo_url_erase {R : Repr} (self : Client) (info : pyval) :
  Bot_without_photo_url info = erase_photo_url <$> Bot_with_photo_url self info.
Proof.
  rewrite Bot_with_photo_url_eq.
  destruct (Bot_without_photo_url info) as [bot|e] eqn:Hbot; [|done].
  simpl. f_equal. symmetry. apply (erase_mapped info bot Hbot).
Qed.

Lemma mapM_erase {R : Repr} (self : Client) (infos : list pyval) :
  mapM Bot_without_photo_url infos
  = fmap (M := list) erase_photo_url <$> mapM (Bot_with_photo_url self) infos.
Proof.
  induction infos as [|info infos IH]; [done|]. simpl.
  rewrite (Bot_without_photo_url_erase self info), IH.
  destruct (Bot_with_photo_url self info); simpl; [|done].
  by destruct (mapM (Bot_with_photo_url self) infos).
Qed.

(** X9.  On the same body [category_search] does what [search] does
    and then drops the photo URL of each bot: it returns the same bots
    without their [photo_url], [None] when [search] returns [None], and
    raises what [search] raises. *)
Theorem category_search_is_search_without_photo_url {R : Repr} (self : Client)
    (query : string) (category : category_arg) (data : pyval) :
  answers self "/search.php" (search_params query) data →
  answers self "/getCategory.php" (category_search_params category) data →
  category_search self category = erase_photo_urls <$> search self query.
Proof.
  intros Hsearch Hcategory.
  unfold answers, search_params in Hsearch.
  unfold answers, category_search_params in Hcategory.
  unfold category_search, search. rewrite Hsearch, Hcategory.
  cbn [mbind outcome_bind].
  destruct (getitem data "result") as [found|e]; [|done].
  cbn [mbind outcome_bind].
  destruct (truthy found); [|done]. cbn [negb].
  destruct (iterate found) as [infos|e]; [|done].
  cbn [mbind outcome_bind].
  rewrite !for_append_mapM, (mapM_erase self).
  by destruct (mapM (Bot_with_photo_url self) infos).
Qed.

Lemma category_search_is_search_without_photo_url_witness :
  category_search (client_answering (result_body (PyList [PyDict vote_bot])))
    (Member enums.POLL)
  = erase_photo_urls
      <$> search (R := plain_repr)
            (client_answering (result_body (PyList [PyDict vote_bot]))) "vote".
Proof.
  apply (category_search_is_search_without_photo_url (R := plain_repr)
           (client_answering (result_body (PyList [PyDict vote_bot])))
           "vote" (Member enums.POLL)
           (result_body (PyList [PyDict vote_bot])));
    reflexivity.
Defined.

(** *** Tags and languages *)

Lemma tokens_words (s : string) (words : list string) :
  tokens s words →
  Forall (λ word, word ≠ "" ∧ all_chars (negb ∘ isspace) word) words.
Proof. induction 1; constructor; auto. Qed.

Lemma split_blank (s : string) : split s = [] ↔ all_chars isspace s.
Proof.
  split.
  - intros Hnil. pose proof (split_tokens s) as H. rewrite Hnil in H.
    by inversion H.
  - intros Hs. symmetry. apply split_spec. by constructor.
Qed.

Lemma all_chars_lstrip (P : ascii → bool) (chars s : string) :
  all_chars P s → all_chars P (lstrip chars s).
Proof.
  induction s as [|c s IH]; [done|]. cbn [lstrip].
  destruct (mem_char c chars); [|done].
  simpl. intros [_ Hs]%andb_True. by apply IH.
Qed.

(** X10.  The languages of a mapped bot are the whitespace-delimited
    tokens of the raw string: each is non-empty and holds no whitespace,
    so a language name in two words comes out as two languages.  The tags
    hold no whitespace either.  A raw string that is empty or blank gives
    the empty list, and only such a string does. *)
Theorem tags_and_languages {R : Repr} (self : Client) (info : pyval)
    (bot : Bot) :
  mapped_from self info bot →
  ∃ d raw_tags raw_languages,
    info = PyDict d
    ∧ d !! "tags" = Some (PyStr raw_tags)
    ∧ d !! "languages" = Some (PyStr raw_languages)
    ∧ tokens raw_languages (languages bot)
    ∧ Forall (λ word, word ≠ "" ∧ all_chars (negb ∘ isspace) word)
        (languages bot)
    ∧ Forall (λ tag, all_chars (negb ∘ isspace) tag) (tags bot)
    ∧ length (tags bot) = length (split raw_tags)
    ∧ (languages bot = [] ↔ all_chars isspace raw_languages)
    ∧ (tags bot = [] ↔ all_chars isspace raw_tags).
Proof.
  intros Hbot.
  assert (∃ d, info = PyDict d ∧ fields_of d bot) as (d & -> & Hf).
  { destruct Hbot as [(d & -> & Hf & _)%Bot_with_photo_url_Return
                     |(d & -> & Hf & _)%Bot_without_photo_url_Return];
      eauto. }
  destruct Hf as [_ _ _ _ _ _ _ _ _ _ _ _ _ (st & Hst & Htags)
                  (sl & Hsl & Hlanguages) _ _].
  exists d, st, sl. rewrite Htags, Hlanguages.
  split; [done|]. split; [done|]. split; [done|].
  split; [apply split_tokens|].
  split; [apply (tokens_words sl), split_tokens|].
  split; [|split; [by rewrite length_fmap|split; [apply split_blank|]]].
  - apply Forall_fmap. eapply Forall_impl; [apply (tokens_words st), split_tokens|].
    intros word [_ Hword]. by apply all_chars_lstrip.
  - rewrite <-split_blank. split; [apply fmap_nil_inv|by intros ->].
Qed.

Lemma tags_and_languages_witness :
  ∃ d raw_tags raw_languages,
    PyDict vote_bot = PyDict d
    ∧ d !! "tags" = Some (PyStr raw_tags)
    ∧ d !! "languages" = Some (PyStr raw_languages)
    ∧ tokens raw_languages (languages vote_Bot)
    ∧ Forall (λ word, word ≠ "" ∧ all_chars (negb ∘ isspace) word)
        (languages vote_Bot)
    ∧ Forall (λ tag, all_chars (negb ∘ isspace) tag) (tags vote_Bot)
    ∧ length (tags vote_Bot) = length (split raw_tags)
    ∧ (languages vote_Bot = [] ↔ all_chars isspace raw_languages)
    ∧ (tags vote_Bot = [] ↔ all_chars isspace raw_tags).
Proof.
  apply (tags_and_languages (R := plain_repr) (client_answering PyNone)
           (PyDict vote_bot) vote_Bot).
  left. vm_compute. reflexivity.
Defined.

Lemma lstrip_unprefixed (tag : string) :
  starts_with is_hash tag = false → lstrip "#" tag = tag.
Proof.
  destruct tag as [|c tag]; [done|]. cbn [lstrip starts_with].
  rewrite mem_char_hash. by intros ->.
Qed.

Lemma encode_tags_tokens (tags : list string) :
  Forall (λ tag, all_chars (negb ∘ isspace) tag) tags →
  tokens (encode_tags tags) ((λ tag, "#" +:+ tag) <$> tags).
Proof.
  unfold encode_tags.
  induction tags as [|tag tags IH]; intros Hall.
  - by apply tokens_nil.
  - apply Forall_cons in Hall as [Htag Hall]. specialize (IH Hall).
    assert (all_chars (negb ∘ isspace) ("#" +:+ tag)) as Hword
      by (rewrite append_cons, append_nil_l; simpl; done).
    destruct tags as [|tag' tags].
    + cbn [fmap list_fmap String.concat].
      rewrite <-(append_nil_r ("#" +:+ tag)) at 1.
      apply (tokens_cons "" ("#" +:+ tag) "" []);
        [done|done|done|by left|by apply tokens_nil].
    + change (tokens (("#" +:+ tag) +:+ " "
                      +:+ String.concat " "
                            ((λ tag, "#" +:+ tag) <$> tag' :: tags))
                (("#" +:+ tag) :: ((λ tag, "#" +:+ tag) <$> tag' :: tags))).
      apply (tokens_cons "" ("#" +:+ tag)); [done|done|done|by right|].
      rewrite append_cons, append_nil_l. by apply tokens_space.
Qed.

(** X11.  Tags sent the way the service writes them, each prefixed with
    ['#'] and separated by a space, come back as they were, provided no
    tag holds whitespace or begins with ['#']. *)
Theorem tags_round_trip {R : Repr} (self : Client) (d : gmap string pyval)
    (bot : Bot) (sent : list string) :
  mapped_from self (PyDict d) bot →
  d !! "tags" = Some (PyStr (encode_tags sent)) →
  Forall (λ tag, all_chars (negb ∘ isspace) tag) sent →
  Forall (λ tag, starts_with is_hash tag = false) sent →
  tags bot = sent.
Proof.
  intros Hbot Hsent Hspace Hhash.
  assert (fields_of d bot) as Hf.
  { by destruct Hbot as [(d' & [= <-] & Hf & _)%Bot_with_photo_url_Return
                        |(d' & [= <-] & Hf & _)%Bot_without_photo_url_Return]. }
  destruct Hf as [_ _ _ _ _ _ _ _ _ _ _ _ _ (st & Hst & ->) _ _ _].
  rewrite Hsent in Hst. injection Hst as <-.
  rewrite <-(proj1 (split_spec _ _) (encode_tags_tokens sent Hspace)).
  rewrite <-list_fmap_compose. rewrite <-(list_fmap_id sent) at 2.
  apply Forall_fmap_ext_1. eapply Forall_impl; [exact Hhash|].
  intros tag Htag. unfold compose.
  change ("#" +:+ tag) with (String "#" tag).
  cbn [lstrip]. rewrite mem_char_hash. change (is_hash "#") with true.
  cbn match. by apply lstrip_unprefixed.
Qed.

Lemma tags_round_trip_witness : tags vote_Bot = ["vote"; "poll"; "like"].
Proof.
  apply (tags_round_trip (R := plain_repr) (client_answering PyNone)
           vote_bot vote_Bot ["vote"; "poll"; "like"]).
  - left. vm_compute. reflexivity.
  - vm_compute. reflexivity.
  - repeat constructor.
  - repeat constructor.
Defined.

(** *** Numbers sent as strings *)

Lemma scan_digit (c : ascii) (acc : Z) (s : string) :
  is_digit c →
  scan_digits false acc (String c s)
  = scan_digits false (10 * acc + digit_value c) s.
Proof.
  intros Hc. cbn [scan_digits].
  by rewrite (digit_not_underscore c Hc), (digit_true c Hc).
Qed.

Local Ltac digit_arith :=
  match goal with
  | |- context [digit_value ?c] =>
      let v := eval vm_compute in (digit_value c) in
      change (digit_value c) with v
  end; lia.

Lemma scan_uint_acc (d : Decimal.uint) (p : positive) :
  scan_digits false (Z.pos p) (NilEmpty.string_of_uint d)
  = Some (Z.pos (Pos.of_uint_acc d p), "").
Proof.
  revert p. induction d as [|d IH|d IH|d IH|d IH|d IH|d IH|d IH|d IH|d IH|d IH];
    intros p; cbn [NilEmpty.string_of_uint Pos.of_uint_acc]; [done|..];
    rewrite scan_digit by done; rewrite <-IH; f_equal; digit_arith.
Qed.

Lemma scan_uint (d : Decimal.uint) :
  scan_digits false 0 (NilEmpty.string_of_uint d)
  = Some (Z.of_N (Pos.of_uint d), "").
Proof.
  induction d as [|d IH|d IH|d IH|d IH|d IH|d IH|d IH|d IH|d IH|d IH];
    cbn [NilEmpty.string_of_uint Pos.of_uint]; [done|..];
    rewrite scan_digit by done;
    [exact IH|cbn [Z.of_N]; rewrite <-scan_uint_acc; f_equal; digit_arith..].
Qed.

Lemma uint_head (d : Decimal.uint) :
  d ≠ Decimal.Nil →
  ∃ c rest, NilEmpty.string_of_uint d = String c rest ∧ is_digit c.
Proof.
  destruct d; [done|..]; intros _; eexists _, _; (split; [reflexivity|done]).
Qed.

Lemma int_of_digits (c : ascii) (rest : string) (n : Z) :
  is_digit c → scan_digits false 0 (String c rest) = Some (n, "") →
  count_digits (String c rest) <= max_str_digits →
  int_of_str (String c rest) = Return n
  ∧ int_of_str (String "-" (String c rest)) = Return (- n).
Proof.
  intros Hc Hscan Hmax%Z.ltb_ge. unfold int_of_str. split.
  - rewrite skip_space_id by (simpl; by apply digit_not_space).
    rewrite (read_sign_digit c rest Hc). cbv beta iota.
    rewrite (digit_true c Hc), Hscan, Hmax. done.
  - change (skip_space (String "-" (String c rest)))
      with (String "-" (String c rest)).
    change (read_sign (String "-" (String c rest)))
      with (true, String c rest).
    cbv beta iota. rewrite (digit_true c Hc), Hscan, Hmax. done.
Qed.

Lemma count_uint (d : Decimal.uint) :
  count_digits (NilEmpty.string_of_uint d) = Z.of_nat (Decimal.nb_digits d).
Proof.
  induction d as [|d IH|d IH|d IH|d IH|d IH|d IH|d IH|d IH|d IH|d IH];
    [done|..];
    cbn [NilEmpty.string_of_uint Decimal.nb_digits count_digits];
    rewrite digit_not_underscore, digit_true by done; rewrite IH; lia.
Qed.

Lemma of_uint_acc_lower (d : Decimal.uint) (acc : positive) :
  Z.pos acc * 10 ^ Z.of_nat (Decimal.nb_digits d)
  <= Z.pos (Pos.of_uint_acc d acc).
Proof.
  revert acc.
  induction d as [|d IH|d IH|d IH|d IH|d IH|d IH|d IH|d IH|d IH|d IH];
    intros acc; cbn [Pos.of_uint_acc Decimal.nb_digits];
    [rewrite Z.pow_0_r; lia|..];
    (etrans; [|apply IH]);
    rewrite Nat2Z.inj_succ, Z.pow_succ_r by lia;
    pose proof (Z.pow_pos_nonneg 10 (Z.of_nat (Decimal.nb_digits d)));
    nia.
Qed.

Lemma nzhead_head (d d' : Decimal.uint) : Decimal.nzhead d ≠ Decimal.D0 d'.
Proof. induction d; simpl; done. Qed.

(** The decimal digits of a positive number are no more than its size
    allows. *)
Lemma digits_of_positive (p : positive) :
  10 ^ (Z.of_nat (Decimal.nb_digits (Pos.to_uint p)) - 1) <= Z.pos p.
Proof.
  pose proof (Unsigned.of_to p) as Hof.
  pose proof (Unsigned.to_of (Pos.to_uint p)) as Hnorm.
  rewrite Hof in Hnorm. cbn [N.to_uint] in Hnorm.
  pose proof (Unsigned.to_uint_nonzero p) as Hnz.
  pose proof (Unsigned.to_uint_nonnil p) as Hnn.
  destruct (Pos.to_uint p) as [|d|d|d|d|d|d|d|d|d|d] eqn:Hd; [done|..].
  { unfold Decimal.unorm in Hnorm. cbn [Decimal.nzhead] in Hnorm.
    destruct (Decimal.nzhead d) as [|u|u|u|u|u|u|u|u|u|u] eqn:Hhead;
      [|by destruct (nzhead_head d u)|discriminate Hnorm..].
    injection Hnorm as ->. by destruct Hnz. }
  all: cbn [Pos.of_uint] in Hof; injection Hof as <-;
    cbn [Decimal.nb_digits]; rewrite Nat2Z.inj_succ;
    replace (Z.succ (Z.of_nat (Decimal.nb_digits d)) - 1)
      with (Z.of_nat (Decimal.nb_digits d)) by lia;
    (etrans; [|apply of_uint_acc_lower]);
    pose proof (Z.pow_pos_nonneg 10 (Z.of_nat (Decimal.nb_digits d)));
    nia.
Qed.

(** [int] reads back the decimal text of an integer within the bound on
    digits. *)
Lemma int_of_str_of_int (z : Z) :
  Z.abs z < 10 ^ max_str_digits → int_of_str (str_of_int z) = Return z.
Proof.
  intros Hz.
  assert (∀ p, Z.pos p < 10 ^ max_str_digits → ∃ c rest,
            NilZero.string_of_uint (Pos.to_uint p) = String c rest
            ∧ is_digit c
            ∧ scan_digits false 0 (String c rest) = Some (Z.pos p, "")
            ∧ count_digits (String c rest) <= max_str_digits)
    as Hpos.
  { intros p Hp. pose proof (Unsigned.to_uint_nonnil p) as Hnn.
    assert (NilZero.string_of_uint (Pos.to_uint p)
            = NilEmpty.string_of_uint (Pos.to_uint p)) as ->
      by (by destruct (Pos.to_uint p)).
    destruct (uint_head _ Hnn) as (c & rest & Heq & Hc).
    exists c, rest. split; [done|]. split; [done|].
    rewrite <-Heq, scan_uint, Unsigned.of_to, count_uint.
    split; [done|].
    pose proof (digits_of_positive p) as Hlow.
    assert (Z.of_nat (Decimal.nb_digits (Pos.to_uint p)) - 1 < max_str_digits);
      [|lia].
    apply (Z.pow_lt_mono_r_iff 10); [lia|done|lia]. }
  destruct z as [|p|p]; [done|..]; unfold str_of_int;
    cbn [Z.to_int NilZero.string_of_int];
    destruct (Hpos p Hz) as (c & rest & -> & Hc & Hscan & Hmax);
    by apply (int_of_digits c rest (Z.pos p)).
Qed.

Lemma vote_result_int (d : gmap string pyval) (v : pyval) :
  d !! "result" = Some v → vote_result (PyDict d) = PyInt <$> int v.
Proof.
  intros Hv. unfold vote_result. simpl. rewrite Hv.
  by rewrite bool_decide_true by eauto.
Qed.

(** X12.  A number of at most 4300 digits sent as its decimal string
    is read as the number: [int] of the text of such an integer is that
    integer.  So the vote, the [developer_id] and the [offline] flag are
    the same whether the service sends [z] or the string of [z]. *)
Theorem number_as_string {R : Repr} (self : Client) (z : Z) :
  Z.abs z < 10 ^ max_str_digits →
  int (PyStr (format (PyInt z))) = Return z
  ∧ (∀ bot_id user_id d,
       answers self "/getUserVote.php"
         (get_user_vote_params bot_id user_id) (PyDict d) →
       ¬ has_sentinel (PyDict d) →
       d !! "result" = Some (PyInt z)
       ∨ d !! "result" = Some (PyStr (format (PyInt z))) →
       get_user_vote self bot_id user_id = Return (PyInt z))
  ∧ (∀ d bot,
       mapped_from self (PyDict d) bot →
       (d !! "developer_id" = Some (PyInt z)
        ∨ d !! "developer_id" = Some (PyStr (format (PyInt z))) →
        developer_id bot = z)
       ∧ (d !! "offline" = Some (PyInt z)
          ∨ d !! "offline" = Some (PyStr (format (PyInt z))) →
          offline bot = negb (z =? 0))).
Proof.
  intros Hbound.
  assert (∀ v, v = PyInt z ∨ v = PyStr (format (PyInt z)) →
               int v = Return z) as Hint.
  { intros v [-> | ->]; [done|]. by apply int_of_str_of_int. }
  split; [apply Hint; by right|]. split.
  - intros bot_id user_id d Hdata Hno Hresult.
    unfold get_user_vote_params in Hdata.
    rewrite (get_user_vote_answers self _ bot_id user_id Hdata).
    rewrite (raise_if_not_found_dict d Hno).
    assert (∃ v, d !! "result" = Some v ∧ int v = Return z) as (v & Hv & Hz).
    { destruct Hresult as [Hv|Hv]; eexists; (split; [exact Hv|]);
        apply Hint; auto. }
    rewrite (vote_result_int d v Hv), Hz. done.
  - intros d bot Hbot.
    assert (fields_of d bot) as Hf.
    { by destruct Hbot as [(d' & [= <-] & Hf & _)%Bot_with_photo_url_Return
                          |(d' & [= <-] & Hf & _)%Bot_without_photo_url_Return]. }
    destruct Hf as [_ _ _ _ _ _ _ _ _ (vd & Hvd & Hzd) _ _ _ _ _
                    (vo & zo & Hvo & Hzo & Ho) _].
    split.
    + intros Hv. assert (int vd = Return z) as Hz.
      { apply Hint. destruct Hv as [Hv|Hv]; rewrite Hv in Hvd;
          injection Hvd as <-; auto. }
      congruence.
    + intros Hv. assert (int vo = Return z) as Hz.
      { apply Hint. destruct Hv as [Hv|Hv]; rewrite Hv in Hvo;
          injection Hvo as <-; auto. }
      rewrite Ho. congruence.
Qed.

Lemma number_as_string_witness :
  Z.abs 5 < 10 ^ max_str_digits
  ∧ get_user_vote (client_answering (PyDict vote_body)) 1 141691961
    = Return (PyInt 5).
Proof.
  assert (Z.abs 5 < 10 ^ max_str_digits) as Hbound
    by (vm_compute; reflexivity).
  assert (¬ has_sentinel (PyDict vote_body)) as Hno.
  { intros (d & [= <-] & Hmsg). vm_compute in Hmsg. discriminate Hmsg. }
  split; [exact Hbound|].
  apply (proj1 (proj2 (number_as_string (R := plain_repr)
                         (client_answering (PyDict vote_body)) 5 Hbound))
           1 141691961 vote_body eq_refl Hno).
  right. vm_compute. reflexivity.
Defined.

(** *** Categories and photo URLs *)

(** X13.  The twelve category codes are pairwise distinct: no member is
    an alias of another, and two members send the same ["category"]
    parameter only if they are the same member. *)
Theorem category_codes_distinct (c1 c2 : enums.Category) :
  category_param (Member c1) = category_param (Member c2) → c1 = c2.
Proof. destruct c1, c2; simpl; intros H; first [reflexivity|discriminate H]. Qed.

Lemma category_codes_distinct_witness : enums.FILES = enums.FILES.
Proof. apply (category_codes_distinct enums.FILES enums.FILES eq_refl). Defined.

Lemma length_append (s t : string) :
  String.length (s +:+ t) = (String.length s + String.length t)%nat.
Proof.
  induction s as [|c s IH]; [done|]. rewrite append_cons. simpl. by rewrite IH.
Qed.

Lemma append_cancel_r (s1 s2 t : string) : s1 +:+ t = s2 +:+ t → s1 = s2.
Proof.
  revert s2. induction s1 as [|c s1 IH]; intros [|c' s2] Heq;
    rewrite ?append_cons, ?append_nil_l in Heq.
  - done.
  - apply (f_equal String.length) in Heq. simpl in Heq.
    rewrite length_append in Heq. lia.
  - apply (f_equal String.length) in Heq. simpl in Heq.
    rewrite length_append in Heq. lia.
  - injection Heq as <- Heq. by rewrite (IH s2 Heq).
Qed.

(** The decimal text of an integer holds its sign and its magnitude, of
    any length. *)
Lemma str_of_int_read (z : Z) :
  ∃ s, read_sign (str_of_int z) = (z <? 0, s)
       ∧ scan_digits false 0 s = Some (Z.abs z, "").
Proof.
  assert (∀ p, ∃ c rest,
            NilZero.string_of_uint (Pos.to_uint p) = String c rest
            ∧ is_digit c
            ∧ scan_digits false 0 (String c rest) = Some (Z.pos p, ""))
    as Hpos.
  { intros p. pose proof (Unsigned.to_uint_nonnil p) as Hnn.
    assert (NilZero.string_of_uint (Pos.to_uint p)
            = NilEmpty.string_of_uint (Pos.to_uint p)) as ->
      by (by destruct (Pos.to_uint p)).
    destruct (uint_head _ Hnn) as (c & rest & Heq & Hc).
    exists c, rest. split; [done|]. split; [done|].
    by rewrite <-Heq, scan_uint, Unsigned.of_to. }
  destruct z as [|p|p]; [by exists "0"|..]; unfold str_of_int;
    cbn [Z.to_int NilZero.string_of_int];
    destruct (Hpos p) as (c & rest & -> & Hc & Hscan);
    exists (String c rest); (split; [|exact Hscan]).
  - exact (read_sign_digit c rest Hc).
  - reflexivity.
Qed.

Lemma str_of_int_inj (z1 z2 : Z) : str_of_int z1 = str_of_int z2 → z1 = z2.
Proof.
  intros Heq.
  destruct (str_of_int_read z1) as (s1 & Hsign1 & Hscan1).
  destruct (str_of_int_read z2) as (s2 & Hsign2 & Hscan2).
  rewrite Heq, Hsign2 in Hsign1. injection Hsign1 as Hsign <-.
  rewrite Hscan2 in Hscan1. injection Hscan1 as Habs.
  destruct (Z.ltb_spec z1 0), (Z.ltb_spec z2 0); try done; lia.
Qed.

(** X14.  The photo URL tells bots apart: two bots built by one client
    with integer ids and the same photo URL have the same id. *)
Theorem photo_url_identifies {R : Repr} (self : Client) (info1 info2 : pyval)
    (bot1 bot2 : Bot) (i1 i2 : Z) (url : string) :
  Bot_with_photo_url self info1 = Return bot1 →
  Bot_with_photo_url self info2 = Return bot2 →
  id bot1 = PyInt i1 → id bot2 = PyInt i2 →
  photo_url bot1 = Some url → photo_url bot2 = Some url →
  i1 = i2.
Proof.
  intros (d1 & _ & _ & Hurl1)%Bot_with_photo_url_Return
         (d2 & _ & _ & Hurl2)%Bot_with_photo_url_Return Hid1 Hid2 Hsome1 Hsome2.
  rewrite Hurl1, Hid1 in Hsome1. rewrite Hurl2, Hid2 in Hsome2.
  unfold derived_photo_url in Hsome1, Hsome2.
  destruct (truthy (photo bot1)); [|done].
  destruct (truthy (photo bot2)); [|done].
  injection Hsome1 as <-. injection Hsome2 as Heq.
  apply (inj (String.app _)), (inj (String.app _)) in Heq.
  apply append_cancel_r in Heq. simpl in Heq. symmetry.
  by apply str_of_int_inj.
Qed.

Lemma photo_url_identifies_witness : 1 = 1.
Proof.
  apply (photo_url_identifies (R := plain_repr)
           (client_answering PyNone) (PyDict vote_bot) (PyDict vote_bot)
           vote_Bot vote_Bot 1 1 "https://www.botsarchive.com/img/1.jpg");
    vm_compute; reflexivity.
Defined.

(** *** Keys the client does not read *)

Local Ltac key_of_bot :=
  apply list_elem_of_In; simpl; repeat first [left; reflexivity | right].

Lemma constructor_frame {R : Repr} (self : Client) (d : gmap string pyval)
    (k : string) (v : pyval) :
  k ∉ bot_keys →
  Bot_with_photo_url self (PyDict (<[k:=v]> d))
  = Bot_with_photo_url self (PyDict d)
  ∧ Bot_without_photo_url (PyDict (<[k:=v]> d))
    = Bot_without_photo_url (PyDict d).
Proof.
  intros Hk.
  assert (∀ k', k' ∈ bot_keys →
                getitem (PyDict (<[k:=v]> d)) k' = getitem (PyDict d) k')
    as Hget.
  { intros k' Hk'. simpl. rewrite lookup_insert_ne; [done|].
    by intros ->. }
  unfold Bot_with_photo_url, Bot_without_photo_url.
  by rewrite !Hget by key_of_bot.
Qed.

(** X15.  The client reads no key but its own: adding any other key to
    a response object changes nothing.  The constructor calls read the
    seventeen keys of a bot; of the body [get_bot_id] reads ["message"]
    and ["result"], [get_user_vote] these and ["vote"], [search] and
    [category_search] only ["result"]. *)
Theorem unknown_keys_ignored {R : Repr} (self self' : Client)
    (d : gmap string pyval) (k : string) (v : pyval) :
  photo_base_url self = photo_base_url self' →
  (k ∉ bot_keys →
   Bot_with_photo_url self (PyDict (<[k:=v]> d))
   = Bot_with_photo_url self (PyDict d)
   ∧ Bot_without_photo_url (PyDict (<[k:=v]> d))
     = Bot_without_photo_url (PyDict d))
  ∧ (k ≠ "message" → k ≠ "result" →
     ∀ username,
       answers self "/getBotID.php" (get_bot_id_params username) (PyDict d) →
       answers self' "/getBotID.php" (get_bot_id_params username)
         (PyDict (<[k:=v]> d)) →
       get_bot_id self' username = get_bot_id self username)
  ∧ (k ≠ "message" → k ≠ "result" → k ≠ "vote" →
     ∀ bot_id user_id,
       answers self "/getUserVote.php"
         (get_user_vote_params bot_id user_id) (PyDict d) →
       answers self' "/getUserVote.php"
         (get_user_vote_params bot_id user_id) (PyDict (<[k:=v]> d)) →
       get_user_vote self' bot_id user_id = get_user_vote self bot_id user_id)
  ∧ (k ≠ "result" →
     (∀ query,
        answers self "/search.php" (search_params query) (PyDict d) →
        answers self' "/search.php" (search_params query)
          (PyDict (<[k:=v]> d)) →
        search self' query = search self query)
     ∧ (∀ category,
        answers self "/getCategory.php" (category_search_params category)
          (PyDict d) →
        answers self' "/getCategory.php" (category_search_params category)
          (PyDict (<[k:=v]> d)) →
        category_search self' category = category_search self category)).
Proof.
  intros Hphoto.
  assert (Bot_with_photo_url self' = Bot_with_photo_url self) as Hmake.
  { unfold Bot_with_photo_url. by rewrite Hphoto. }
  assert (∀ k', k ≠ k' →
                getitem (PyDict (<[k:=v]> d)) k' = getitem (PyDict d) k'
                ∧ contains k' (PyDict (<[k:=v]> d)) = contains k' (PyDict d))
    as Hother.
  { intros k' Hne. split; [cbn [getitem]|cbn [contains]];
      rewrite lookup_insert_ne by exact Hne; reflexivity. }
  assert (k ≠ "message" →
          raise_if_not_found (PyDict (<[k:=v]> d))
          = raise_if_not_found (PyDict d)) as Hcheck.
  { intros Hm. unfold raise_if_not_found.
    destruct (Hother "message" Hm) as [-> ->]. done. }
  assert (∀ make, k ≠ "result" →
            result_list make (PyDict (<[k:=v]> d))
            = result_list make (PyDict d)) as Hlist.
  { intros make Hr. unfold result_list.
    destruct (Hother "result" Hr) as [-> _]. done. }
  split; [apply constructor_frame|]. split; [|split].
  - intros Hm Hr username Hd Hd'. unfold get_bot_id_params in Hd, Hd'.
    rewrite (get_bot_id_answers self _ username Hd).
    rewrite (get_bot_id_answers self' _ username Hd').
    rewrite (Hcheck Hm), Hmake.
    by destruct (Hother "result" Hr) as [-> _].
  - intros Hm Hr Hv bot_id user_id Hd Hd'.
    unfold get_user_vote_params in Hd, Hd'.
    rewrite (get_user_vote_answers self _ bot_id user_id Hd).
    rewrite (get_user_vote_answers self' _ bot_id user_id Hd').
    rewrite (Hcheck Hm). unfold vote_result.
    destruct (Hother "result" Hr) as [-> ->].
    by destruct (Hother "vote" Hv) as [_ ->].
  - intros Hr. split.
    + intros query Hd Hd'. unfold search_params in Hd, Hd'.
      rewrite (search_answers self _ query Hd).
      rewrite (search_answers self' _ query Hd').
      by rewrite Hmake, (Hlist _ Hr).
    + intros category Hd Hd'. unfold category_search_params in Hd, Hd'.
      rewrite (category_search_answers self _ category Hd).
      rewrite (category_search_answers self' _ category Hd').
      by rewrite (Hlist _ Hr).
Qed.

Lemma unknown_keys_ignored_witness :
  Bot_with_photo_url (R := plain_repr) (client_answering PyNone)
    (PyDict (<["rank" := PyInt 3]> vote_bot))
  = Bot_with_photo_url (R := plain_repr) (client_answering PyNone)
      (PyDict vote_bot).
Proof.
  apply (proj1 (unknown_keys_ignored (R := plain_repr)
                  (client_answering PyNone) (client_answering PyNone)
                  vote_bot "rank" (PyInt 3) eq_refl)).
  intros Hin. apply list_elem_of_In in Hin. simpl in Hin.
  repeat (destruct Hin as [Hin|Hin]; [discriminate Hin|]). done.
Defined.
